(** * Camera calibration and ArUco pose estimation (ACV Lab 1)

    A shallow embedding of the three scripts of the lab,
    [aruco_pose.py], [calibrate.py] and [capture.py], and the properties
    their specification states about them.

    Conventions.
    - A Python/numpy floating-point number is a value of [float]: NaN, the two
      infinities, or a finite value carried by a real number.  The special
      values propagate as IEEE-754 and C99 Annex F prescribe; rounding,
      overflow of finite values and the sign of zero are not modelled.
    - The OpenCV, numpy and YAML routines the scripts call are not part of the
      repository: each script takes them as the methods of a class, and every
      result holds for all instances.  A routine whose exception decides how
      a script ends returns its result or the exception.
    - The camera and the keyboard are the inputs of the loops: a run is
      computed over the list of frames and keys the devices deliver. *)

From Stdlib Require Import Reals Lra Psatz Lia ZArith List String Bool.
From Stdlib Require Import DecimalString.
From stdpp Require Import gmap strings.
Import ListNotations.

Set Warnings "-register-all".

(* ===================================================================== *)
(** * Part I: definitions *)
(* ===================================================================== *)

(** ** Floating-point values *)

Module Float.
Local Open Scope R_scope.

Inductive float : Type :=
| NaN
| PInf
| NInf
| Fin (x : R).

Definition is_nan (a : float) : bool :=
  match a with NaN => true | _ => false end.

Definition is_finite (a : float) : bool :=
  match a with Fin _ => true | _ => false end.

Definition fneg (a : float) : float :=
  match a with
  | NaN => NaN
  | PInf => NInf
  | NInf => PInf
  | Fin x => Fin (- x)
  end.

(** An infinity of sign [pos] times the finite [x]; [inf * 0] is NaN. *)
Definition inf_times (pos : bool) (x : R) : float :=
  if Rlt_dec 0 x then (if pos then PInf else NInf)
  else if Rlt_dec x 0 then (if pos then NInf else PInf)
  else NaN.

Definition fmul (a b : float) : float :=
  match a, b with
  | NaN, _ | _, NaN => NaN
  | PInf, PInf | NInf, NInf => PInf
  | PInf, NInf | NInf, PInf => NInf
  | PInf, Fin x | Fin x, PInf => inf_times true x
  | NInf, Fin x | Fin x, NInf => inf_times false x
  | Fin x, Fin y => Fin (x * y)
  end.

Definition fadd (a b : float) : float :=
  match a, b with
  | NaN, _ | _, NaN => NaN
  | PInf, NInf | NInf, PInf => NaN
  | PInf, _ | _, PInf => PInf
  | NInf, _ | _, NInf => NInf
  | Fin x, Fin y => Fin (x + y)
  end.

(** [x ** 2] *)
Definition fpow2 (a : float) : float := fmul a a.

(** [np.sqrt]: NaN below zero. *)
Definition fsqrt (a : float) : float :=
  match a with
  | NaN | NInf => NaN
  | PInf => PInf
  | Fin x => if Rlt_dec x 0 then NaN else Fin (sqrt x)
  end.

(** [a < b]; every comparison with NaN is false. *)
Definition flt (a b : float) : bool :=
  match a, b with
  | NaN, _ | _, NaN => false
  | _, NInf | PInf, _ => false
  | NInf, _ | _, PInf => true
  | Fin x, Fin y => if Rlt_dec x y then true else false
  end.

(** [a <= b] *)
Definition fle (a b : float) : bool :=
  match a, b with
  | NaN, _ | _, NaN => false
  | NInf, _ | _, PInf => true
  | _, NInf | PInf, _ => false
  | Fin x, Fin y => if Rle_dec x y then true else false
  end.

(** The two-argument arctangent on the reals, the angle of the point
    [(x, y)] in [(-PI, PI]], with the value 0 at the origin. *)
Definition atan2 (y x : R) : R :=
  if Rlt_dec 0 x then atan (y / x)
  else if Rlt_dec x 0 then
    (if Rle_dec 0 y then atan (y / x) + PI else atan (y / x) - PI)
  else if Rlt_dec 0 y then PI / 2
  else if Rlt_dec y 0 then - (PI / 2)
  else 0.

(** [np.arctan2 y x] with the special values of C99 F.9.1.4. *)
Definition fatan2 (y x : float) : float :=
  match y, x with
  | NaN, _ | _, NaN => NaN
  | PInf, PInf => Fin (PI / 4)
  | NInf, PInf => Fin (- (PI / 4))
  | PInf, NInf => Fin (3 * PI / 4)
  | NInf, NInf => Fin (- (3 * PI / 4))
  | PInf, Fin _ => Fin (PI / 2)
  | NInf, Fin _ => Fin (- (PI / 2))
  | Fin _, PInf => Fin 0
  | Fin b, NInf => if Rlt_dec b 0 then Fin (- PI) else Fin PI
  | Fin b, Fin a => Fin (atan2 b a)
  end.

(** [np.degrees x], that is [x * (180 / pi)]. *)
Definition np_degrees (a : float) : float := fmul a (Fin (180 / PI)).

End Float.

(** ** Python values and exceptions *)

Module Py.
Import Float.

(** What [yaml.safe_load] builds: [None], booleans, numbers, strings, lists
    and dicts (with string keys, in document order). *)
Inductive yaml : Type :=
| YNull
| YBool (b : bool)
| YInt (n : Z)
| YFloat (x : float)
| YStr (s : string)
| YSeq (l : list yaml)
| YMap (m : list (string * yaml)).

Inductive PyExn : Type :=
| YAMLError
| KeyError (k : string)
| TypeError
| ValueError
| AttributeError
| Cv2Error.                 (* cv2.error *)

(** How a statement can stop the script: [exit(code)], or an exception no
    handler catches, which the interpreter reports with a traceback and
    turns into status 1. *)
Inductive Stop : Type :=
| SysExit (code : Z)
| Raise (e : PyExn).

Definition exit_status (s : Stop) : Z :=
  match s with
  | SysExit code => code
  | Raise _ => 1%Z
  end.

(** Computations that return or stop. *)
Definition M (A : Type) : Type := Stop + A.

Definition ret {A} (a : A) : M A := inr a.

Definition bind {A B} (m : M A) (k : A -> M B) : M B :=
  match m with
  | inl s => inl s
  | inr a => k a
  end.

Fixpoint dict_get (m : list (string * yaml)) (k : string) : option yaml :=
  match m with
  | [] => None
  | (k', v) :: rest => if String.eqb k' k then Some v else dict_get rest k
  end.

(** A library call that returns or raises. *)
Definition call {A} (r : PyExn + A) : M A :=
  match r with
  | inl e => inl (Raise e)
  | inr a => inr a
  end.

(** [d[k]] for a string key: [KeyError] on a dict without the key,
    [TypeError] on anything that is not a dict. *)
Definition getitem (d : yaml) (k : string) : M yaml :=
  match d with
  | YMap m =>
      match dict_get m k with
      | Some v => ret v
      | None => inl (Raise (KeyError k))
      end
  | _ => inl (Raise TypeError)
  end.

End Py.

Declare Scope py_scope.
Delimit Scope py_scope with py.
Notation "'do' x <- m ; k" := (Py.bind m (fun x => k))
  (at level 10, x name, m at level 100, k at level 200) : py_scope.

(** ** aruco_pose.py *)

Module ArucoPose.
Import Float Py.

Definition CALIBRATION_FILE : string := "calibration.yaml".
Definition MARKER_SIZE : R := 0.094.

Definition Vec3 : Type := float * float * float.
Definition Point2 : Type := float * float.
(** A 3x3 array, read as [Rm i j] for [R[i, j]]. *)
Definition Mat3 : Type := nat -> nat -> float.

(** The numpy and OpenCV routines [aruco_pose.py] calls, over the frames
    [Image] of the camera and the arrays [ndarray] that hold the
    calibration. *)
Class Lib (Image ndarray : Type) : Type := {
  (** [np.array(v)]; it may raise on data numpy cannot arrange. *)
  np_array : yaml -> PyExn + ndarray;
  (** [cv2.Rodrigues(rvec)[0]] *)
  Rodrigues : Vec3 -> Mat3;
  (** [np.linalg.norm(tvec)] *)
  linalg_norm : Vec3 -> float;
  (** [detector.detectMarkers(frame)]: the corners of each marker, and
      [ids], which is [None] when no marker is seen. *)
  detectMarkers : Image -> list (list Point2) * option (list Z);
  (** [cv2.solvePnP(objectPoints, imagePoints, cameraMatrix, distCoeffs)]:
      [(success, rvec, tvec)], or the exception it raises on arguments it
      cannot use, such as a camera matrix that is not 3x3. *)
  solvePnP : list Vec3 -> list Point2 -> ndarray -> ndarray
             -> PyExn + (bool * Vec3 * Vec3)
}.

(** One turn of the camera and the keyboard: what [cap.read()] returns
    ([None] when [ret] is false) and what [cv2.waitKey(1)] returns. *)
Record Tick (Image : Type) : Type := {
  frame : option Image;
  key : Z
}.
Arguments frame {Image} _.
Arguments key {Image} _.

Section Script.
Context {Image ndarray : Type} `{lib : Lib Image ndarray}.

(** [np.degrees([roll, pitch, yaw])] *)
Definition np_degrees3 (a : float * float * float) : float * float * float :=
  let '(roll, pitch, yaw) := a in
  (np_degrees roll, np_degrees pitch, np_degrees yaw).

Definition rotation_vector_to_euler (rvec : Vec3) : float * float * float :=
  let Rm := Rodrigues rvec in
  let sy := fsqrt (fadd (fpow2 (Rm 0 0)) (fpow2 (Rm 1 0))) in
  let singular := flt sy (Fin 1e-6) in
  if negb singular then
    let roll := fatan2 (Rm 2 1) (Rm 2 2) in
    let pitch := fatan2 (fneg (Rm 2 0)) sy in
    let yaw := fatan2 (Rm 1 0) (Rm 0 0) in
    np_degrees3 (roll, pitch, yaw)
  else
    let roll := fatan2 (fneg (Rm 1 2)) (Rm 1 1) in
    let pitch := fatan2 (fneg (Rm 2 0)) sy in
    let yaw := Fin 0 in
    np_degrees3 (roll, pitch, yaw).

(** *** Startup: loading the calibration *)

(** The calibration file as [yaml.safe_load] sees it. *)
Inductive FileContent : Type :=
| Unparsable                (* safe_load raises YAMLError *)
| Parses (doc : yaml).      (* safe_load returns doc *)

(** What the script shows or prints. *)
Record Pose : Type := {
  marker : Z;
  pos : Vec3;               (* x, y, z = tvec.flatten() *)
  euler : float * float * float;  (* roll, pitch, yaw *)
  distance : float;
  rotvec : Vec3
}.

Inductive Event : Type :=
| ErrCalibrationNotFound    (* "ERROR: 'calibration.yaml' not found." *)
| LoadedCalibration         (* "Loaded calibration" and the help text *)
| ErrNoWebcam               (* "ERROR: Could not open webcam" *)
| DrawPose (p : Pose)       (* drawFrameAxes and the three putText lines *)
| NoMarker                  (* "No ArUco marker detected" on the frame *)
| PrintPose (p : Pose)      (* the detailed print on the terminal *)
| Show                      (* cv2.imshow *)
| Done.                     (* "Done!" *)

(** Lines 31 to 39: the guard on the file, then the two required fields. *)
Definition load_calibration (file : option FileContent)
  : list Event * M (ndarray * ndarray) :=
  match file with
  | None => ([ErrCalibrationNotFound], inl (SysExit 1))
  | Some Unparsable => ([], inl (Raise YAMLError))
  | Some (Parses calib_data) =>
      ([], (do cm <- getitem calib_data "camera_matrix";
            do camera_matrix <- call (np_array cm);
            do dc <- getitem calib_data "dist_coeff";
            do dist_coeffs <- call (np_array dc);
            ret (camera_matrix, dist_coeffs))%py)
  end.

(** The document is a dict with the two fields the script reads. *)
Definition has_fields (doc : yaml) : bool :=
  match doc with
  | YMap m =>
      match dict_get m "camera_matrix", dict_get m "dist_coeff" with
      | Some _, Some _ => true
      | _, _ => false
      end
  | _ => false
  end.

(** The format of the calibration artifact: a field is a [rows] x [cols]
    array of floating-point numbers. *)
Definition is_float_row (cols : nat) (v : yaml) : bool :=
  match v with
  | YSeq l =>
      (length l =? cols)%nat &&
      forallb (fun x => match x with YFloat _ => true | _ => false end) l
  | _ => false
  end.

Definition is_float_array (rows cols : nat) (v : yaml) : bool :=
  match v with
  | YSeq l => (length l =? rows)%nat && forallb (is_float_row cols) l
  | _ => false
  end.

(** *** The frame loop *)

Definition half_size : R := MARKER_SIZE / 2.

Definition marker_points : list Vec3 :=
  [ (Fin (- half_size), Fin half_size, Fin 0);      (* top-left *)
    (Fin half_size, Fin half_size, Fin 0);          (* top-right *)
    (Fin half_size, Fin (- half_size), Fin 0);      (* bottom-right *)
    (Fin (- half_size), Fin (- half_size), Fin 0)   (* bottom-left *) ].

Section Loop.
Variables camera_matrix dist_coeffs : ndarray.

Definition pose_of (marker_id : Z) (rvec tvec : Vec3) : Pose :=
  {| marker := marker_id;
     pos := tvec;
     euler := rotation_vector_to_euler rvec;
     distance := linalg_norm tvec;
     rotvec := rvec |}.

(** Lines 115 to 155: the loop over the detected markers, threading the
    flag [print_detailed].  The result is what was drawn and printed, and
    the flag at the end of the loop, or the exception of [cv2.solvePnP]
    that ended it: there is no handler in the script. *)
Fixpoint for_markers (print_detailed : bool) (ms : list (list Point2 * Z))
  : list Event * M bool :=
  match ms with
  | [] => ([], ret print_detailed)
  | (corner_points, marker_id) :: rest =>
      match solvePnP marker_points corner_points camera_matrix dist_coeffs
      with
      | inl e => ([], inl (Raise e))
      | inr (success, rvec, tvec) =>
          if success then
            let p := pose_of marker_id rvec tvec in
            if print_detailed then
              let '(evs, r) := for_markers false rest in
              (DrawPose p :: PrintPose p :: evs, r)
            else
              let '(evs, r) := for_markers print_detailed rest in
              (DrawPose p :: evs, r)
          else for_markers print_detailed rest
      end
  end.

(** Lines 107 to 169: detection, the poses, the display.  A frame on which
    the solver raises is not shown. *)
Definition process_frame (print_detailed : bool) (fr : Image)
  : list Event * M bool :=
  let '(corners, ids) := detectMarkers fr in
  match ids with
  | Some ((_ :: _) as l) =>
      match for_markers print_detailed (combine corners l) with
      | (evs, inr pd) => (evs ++ [Show], ret pd)
      | (evs, inl stop) => (evs, inl stop)
      end
  | _ => ([NoMarker; Show], ret print_detailed)
  end.

(** Lines 172 to 176: [Some pd] to go on with the flag [pd], [None] to
    quit. *)
Definition handle_key (print_detailed : bool) (k : Z) : option bool :=
  let key := Z.land k 255 in
  if (key =? 27)%Z || (key =? 113)%Z then None
  else if (key =? 112)%Z then Some true
  else Some print_detailed.

(** One iteration of [while True]. *)
Definition frame_step (print_detailed : bool) (t : Tick Image)
  : list Event * M (option bool) :=
  match frame t with
  | None => ([], ret None)
  | Some fr =>
      match process_frame print_detailed fr with
      | (evs, inr pd) => (evs, ret (handle_key pd (key t)))
      | (evs, inl stop) => (evs, inl stop)
      end
  end.

(** The loop over the ticks the devices deliver; the end of the list stands
    for the camera delivering no more frames.  The loop is left by a
    [break], or by an exception raised in a frame. *)
Fixpoint main_loop (print_detailed : bool) (ticks : list (Tick Image))
  : list Event * M unit :=
  match ticks with
  | [] => ([], ret tt)
  | t :: rest =>
      match frame_step print_detailed t with
      | (evs, inr (Some pd)) =>
          let '(evs', r) := main_loop pd rest in (evs ++ evs', r)
      | (evs, inr None) => (evs, ret tt)
      | (evs, inl stop) => (evs, inl stop)
      end
  end.

End Loop.

(** The whole script: what it shows and prints, and how it ends; running to
    the last line is status 0. *)
Definition main (file : option FileContent) (webcam_opened : bool)
  (ticks : list (Tick Image)) : list Event * Stop :=
  match load_calibration file with
  | (evs, inl stop) => (evs, stop)
  | (evs, inr (camera_matrix, dist_coeffs)) =>
      if negb webcam_opened then
        (evs ++ [LoadedCalibration; ErrNoWebcam], SysExit 1)
      else
        match main_loop camera_matrix dist_coeffs false ticks with
        | (evs', inr _) => (evs ++ LoadedCalibration :: evs' ++ [Done],
                            SysExit 0)
        | (evs', inl stop) => (evs ++ LoadedCalibration :: evs', stop)
        end
  end.

(** *** Observations on a run *)

(** No entry of the 3x3 matrix is NaN. *)
Definition matrix_has_no_nan (Rm : Mat3) : Prop :=
  forall i j, i < 3 -> j < 3 -> is_nan (Rm i j) = false.

Definition no_pose (l : list Pose) : bool :=
  match l with [] => true | _ => false end.

(** The poses drawn on the frames, and the poses printed in detail. *)
Definition draws (evs : list Event) : list Pose :=
  flat_map (fun e => match e with DrawPose p => [p] | _ => [] end) evs.

Definition printed (evs : list Event) : list Pose :=
  flat_map (fun e => match e with PrintPose p => [p] | _ => [] end) evs.

Definition frames_shown (evs : list Event) : nat :=
  length (List.filter (fun e => match e with Show => true | _ => false end) evs).

(** The key read at the end of a tick asks for a detailed print. *)
Definition is_request (t : Tick Image) : bool :=
  (Z.land (key t) 255 =? 112)%Z.

Definition requests (ticks : list (Tick Image)) : nat :=
  length (List.filter is_request ticks).

(** The calls of the solver for the markers, in order, up to the first
    that raises: the solutions it reports with success, each as the pose
    the script builds from it, and the exception, if one is raised. *)
Fixpoint solve_all (camera_matrix dist_coeffs : ndarray)
  (ms : list (list Point2 * Z)) : list Pose * option PyExn :=
  match ms with
  | [] => ([], None)
  | m :: rest =>
      match solvePnP marker_points (fst m) camera_matrix dist_coeffs with
      | inl e => ([], Some e)
      | inr (success, rvec, tvec) =>
          let '(ps, r) := solve_all camera_matrix dist_coeffs rest in
          ((if success then [pose_of (snd m) rvec tvec] else []) ++ ps, r)
      end
  end.

Definition solved (camera_matrix dist_coeffs : ndarray)
  (ms : list (list Point2 * Z)) : list Pose :=
  fst (solve_all camera_matrix dist_coeffs ms).

Definition raised (camera_matrix dist_coeffs : ndarray)
  (ms : list (list Point2 * Z)) : option PyExn :=
  snd (solve_all camera_matrix dist_coeffs ms).

(** The markers the loop of a frame goes through. *)
Definition frame_markers (fr : Image) : list (list Point2 * Z) :=
  let '(corners, ids) := detectMarkers fr in
  match ids with
  | Some l => combine corners l
  | None => []
  end.

Definition frame_poses (camera_matrix dist_coeffs : ndarray) (fr : Image)
  : list Pose :=
  solved camera_matrix dist_coeffs (frame_markers fr).

(** The exception the solver raises on a marker of the frame, if any. *)
Definition frame_raise (camera_matrix dist_coeffs : ndarray) (fr : Image)
  : option PyExn :=
  raised camera_matrix dist_coeffs (frame_markers fr).

(** The key quits the loop. *)
Definition is_quit (k : Z) : bool :=
  ((Z.land k 255 =? 27) || (Z.land k 255 =? 113))%Z.

(** A tick on which no pose succeeds, the solver does not raise and the
    loop goes on. *)
Definition quiet (camera_matrix dist_coeffs : ndarray) (t : Tick Image)
  : bool :=
  match frame t with
  | Some fr =>
      match frame_raise camera_matrix dist_coeffs fr with
      | Some _ => false
      | None =>
          no_pose (frame_poses camera_matrix dist_coeffs fr)
          && negb (is_quit (key t))
      end
  | None => false
  end.

(** The exception that ends the loop, if one does: that of the first frame
    on which the solver raises, when the loop gets there. *)
Fixpoint loop_raise (camera_matrix dist_coeffs : ndarray)
  (ticks : list (Tick Image)) : option PyExn :=
  match ticks with
  | [] => None
  | t :: rest =>
      match frame t with
      | None => None
      | Some fr =>
          match frame_raise camera_matrix dist_coeffs fr with
          | Some e => Some e
          | None =>
              if is_quit (key t) then None
              else loop_raise camera_matrix dist_coeffs rest
          end
      end
  end.

End Script.

(** Real 3x3 matrices for the Rodrigues formula. *)
Definition mat_I (i j : nat) : R := if Nat.eqb i j then 1%R else 0%R.

Definition cross_matrix (kx ky kz : R) (i j : nat) : R :=
  match i, j with
  | 0, 1 => Ropp kz | 0, 2 => ky
  | 1, 0 => kz | 1, 2 => Ropp kx
  | 2, 0 => Ropp ky | 2, 1 => kx
  | _, _ => 0%R
  end.

Definition mat_mul (A B : nat -> nat -> R) (i j : nat) : R :=
  (A i 0%nat * B 0%nat j + A i 1%nat * B 1%nat j + A i 2%nat * B 2%nat j)%R.

(** Modelled from the spec: [cv2.Rodrigues] belongs to OpenCV and is not in
    the repository.  The spec's [toMatrix]: for the angle
    [theta = ||rvec||] and the unit axis [k = rvec / theta],
    [R = I + sin(theta) K + (1 - cos(theta)) K^2] with [K] the cross-product
    matrix of [k], and the identity when [theta] is below the tolerance
    [eps]; the tolerance is positive, so that the division is by an angle
    that is not zero.  A vector with a NaN or infinite component has a NaN
    norm or a NaN cosine, so every entry of its matrix is NaN. *)
Definition Rodrigues_spec (eps : R) (rvec : Vec3) : Mat3 :=
  match rvec with
  | (Fin x, Fin y, Fin z) =>
      let theta := sqrt (x * x + y * y + z * z) in
      if Rlt_dec theta eps then fun i j => Fin (mat_I i j)
      else
        let K := cross_matrix (x / theta) (y / theta) (z / theta) in
        fun i j =>
          Fin (mat_I i j + sin theta * K i j
               + (1 - cos theta) * mat_mul K K i j)
  | _ => fun _ _ => NaN
  end.

(** *** A library for the examples

    A frame is given by the markers the detector finds in it; arrays are the
    values they are built from; the norm is computed without rounding; the
    solver is a parameter of the example, called on a camera matrix that is
    a 3x3 array of numbers, and [cv2.error] is raised on any other. *)
Definition DBL_EPSILON : R := 1 / 4503599627370496.   (* 2^-52 *)

Definition lib_example (solver : list Point2 -> bool * Vec3 * Vec3)
  : Lib (list (list Point2 * Z)) yaml :=
  {| np_array := fun v => inr v;
     Rodrigues := Rodrigues_spec DBL_EPSILON;
     linalg_norm := fun '(x, y, z) =>
       fsqrt (fadd (fadd (fpow2 x) (fpow2 y)) (fpow2 z));
     detectMarkers := fun fr =>
       (map fst fr, match fr with [] => None | _ => Some (map snd fr) end);
     solvePnP := fun _ corners cm _ =>
       if is_float_array 3 3 cm then inr (solver corners)
       else inl Cv2Error |}.

(** A solver that reports a solution one metre in front of the camera. *)
Definition solver_front (_ : list Point2) : bool * Vec3 * Vec3 :=
  (true, (Fin 0, Fin 0, Fin 0), (Fin 0, Fin 0, Fin 1)).

(** A solver that fails. *)
Definition solver_fails (_ : list Point2) : bool * Vec3 * Vec3 :=
  (false, (Fin 0, Fin 0, Fin 0), (Fin 0, Fin 0, Fin 0)).

(** The rotation by a quarter turn about the Y axis: pitch is +90 degrees,
    the gimbal lock of the Euler extraction. *)
Definition y90 : Vec3 := (Fin 0, Fin (PI / 2), Fin 0).

(** The zero vector: no rotation, the case [theta = 0]. *)
Definition no_rotation : Vec3 := (Fin 0, Fin 0, Fin 0).

(** A calibration file whose two fields are strings. *)
Definition malformed_calibration : FileContent :=
  Parses (YMap [("camera_matrix", YStr "abc"); ("dist_coeff", YStr "xyz")]).

(** The arrays of a calibration: a 3x3 camera matrix and a 1x5 row of
    distortion coefficients. *)
Definition camera_matrix_example : yaml :=
  YSeq [ YSeq [YFloat (Fin 800); YFloat (Fin 0); YFloat (Fin 320)];
         YSeq [YFloat (Fin 0); YFloat (Fin 800); YFloat (Fin 240)];
         YSeq [YFloat (Fin 0); YFloat (Fin 0); YFloat (Fin 1)] ].

Definition dist_coeff_example : yaml :=
  YSeq [ YSeq [YFloat (Fin 0); YFloat (Fin 0); YFloat (Fin 0);
               YFloat (Fin 0); YFloat (Fin 0)] ].

Definition calibration_example : FileContent :=
  Parses (YMap [("camera_matrix", camera_matrix_example);
                ("dist_coeff", dist_coeff_example)]).

(** The corners of a square of 100 pixels. *)
Definition square : list Point2 :=
  [ (Fin 100, Fin 100); (Fin 200, Fin 100);
    (Fin 200, Fin 200); (Fin 100, Fin 200) ].

End ArucoPose.

(** ** calibrate.py *)

Module Calibrate.
Import Float Py.

Definition Vec3 : Type := float * float * float.
Definition Point2 : Type := float * float.

Definition CHESSBOARD_SIZE : nat * nat := (9, 7).
Definition SQUARE_SIZE : R := 16.5.
Definition IMAGE_DIR : string := "calib_images".
Definition OUTPUT_FILE : string := "calibration.yaml".

(** [cv2.TERM_CRITERIA_MAX_ITER] and [cv2.TERM_CRITERIA_EPS] *)
Definition TERM_CRITERIA_MAX_ITER : nat := 1.
Definition TERM_CRITERIA_EPS : nat := 2.

(** The criteria tuple [(type, max_iter, epsilon)]. *)
Definition TermCriteria : Type := nat * nat * R.

(** What [cv2.calibrateCamera] returns: [ret, mtx, dist, rvecs, tvecs]. *)
Record Calibration : Type := {
  rms : float;
  mtx : list (list float);
  dist : list (list float);
  rvecs : list Vec3;
  tvecs : list Vec3
}.

(** The OpenCV routines [calibrate.py] calls, over the images [Image]. *)
Class Lib (Image : Type) : Type := {
  (** [cv2.imread(fname)], [None] for a file it cannot read *)
  imread : string -> option Image;
  (** [cv2.cvtColor(img, cv2.COLOR_BGR2GRAY)] *)
  cvtColor : Image -> Image;
  (** [gray.shape[::-1]] *)
  shape_rev : Image -> nat * nat;
  (** [cv2.findChessboardCorners(gray, size, None)]: [(found, corners)] *)
  findChessboardCorners : Image -> nat * nat -> bool * list Point2;
  (** one iteration of the local optimisation of [cv2.cornerSubPix] around a
      corner, for the search window and the zero zone given *)
  subpix_step : Image -> nat * nat -> Z * Z -> Point2 -> Point2;
  (** [cv2.calibrateCamera(objpoints, imgpoints, size, None, None)],
      [None] when it raises [cv2.error] *)
  calibrateCamera :
    list (list Vec3) -> list (list Point2) -> nat * nat -> option Calibration
}.

(** What the script prints. *)
Inductive Msg : Type :=
| ErrNoDirectory                 (* "Directory 'calib_images' not found." *)
| ErrNoImages                    (* "No .jpg images found" *)
| CouldNotRead (fname : string)
| Detected (fname : string)
| NotDetected (fname : string)
| Results (successful failed : nat)
| ErrNotEnough (successful : nat)  (* "Not enough valid images" *)
| ErrCalibrationFailed           (* "Calibration failed" *)
| Excellent
| Good
| Acceptable
| Poor
| Saved.

(** The variables the loop over the images updates. *)
Record Acc (Image : Type) : Type := {
  objpoints : list (list Vec3);
  imgpoints : list (list Point2);
  successful : nat;
  failed : nat;
  gray : option Image;
  out : list Msg
}.
Arguments objpoints {Image} _.
Arguments imgpoints {Image} _.
Arguments successful {Image} _.
Arguments failed {Image} _.
Arguments gray {Image} _.
Arguments out {Image} _.

Section Script.
Context {Image : Type} `{lib : Lib Image}.

(** Lines 37 to 44: the grid of object points, [x] running fastest, scaled
    by the square size, in the plane [z = 0]. *)
Definition objp : list Vec3 :=
  flat_map (fun j =>
    map (fun i => (Fin (INR i * SQUARE_SIZE), Fin (INR j * SQUARE_SIZE),
                   Fin (0 * SQUARE_SIZE)))
        (seq 0 (fst CHESSBOARD_SIZE)))
    (seq 0 (snd CHESSBOARD_SIZE)).

(** *** Corner refinement *)

(** The distance between two estimates of a corner. *)
Definition displacement (p q : Point2) : float :=
  let '(px, py) := p in
  let '(qx, qy) := q in
  fsqrt (fadd (fpow2 (fadd qx (fneg px))) (fpow2 (fadd qy (fneg py)))).

(** Modelled from the spec: the loop inside [cv2.cornerSubPix] belongs to
    OpenCV and is not in the repository.  The spec: corner positions are
    refined by iterative local optimisation around an initial estimate,
    terminating after [max_iter] iterations or when the positional change
    is below [epsilon], whichever first.  The result is the refined corner
    and the number of iterations run. *)
Fixpoint refine_corner (step : Point2 -> Point2) (epsilon : R)
  (max_iter : nat) (p : Point2) : Point2 * nat :=
  match max_iter with
  | 0 => (p, 0)
  | S n =>
      let q := step p in
      if flt (displacement p q) (Fin epsilon) then (q, 1)
      else let '(r, k) := refine_corner step epsilon n q in (r, S k)
  end.

(** Modelled from the spec: [cv2.cornerSubPix(image, corners, winSize,
    zeroZone, criteria)] refines every corner under the criteria; the type
    of the criteria of the script, [EPS + MAX_ITER], puts both limits in
    force. *)
Definition cornerSubPix (gray : Image) (corners : list Point2)
  (winSize : nat * nat) (zeroZone : Z * Z) (criteria : TermCriteria)
  : list Point2 :=
  let '(_, max_iter, epsilon) := criteria in
  map (fun p =>
         fst (refine_corner (subpix_step gray winSize zeroZone)
                epsilon max_iter p))
      corners.

(** Line 83: the criteria the script passes. *)
Definition criteria : TermCriteria :=
  (TERM_CRITERIA_EPS + TERM_CRITERIA_MAX_ITER, 30, 0.001%R).

(** *** The loop over the images *)

Definition acc0 : Acc Image :=
  {| objpoints := []; imgpoints := []; successful := 0; failed := 0;
     gray := None; out := [] |}.

(** Lines 66 to 91: the body of [for fname in images]. *)
Definition process_image (a : Acc Image) (fname : string) : Acc Image :=
  match imread fname with
  | None =>
      {| objpoints := objpoints a; imgpoints := imgpoints a;
         successful := successful a; failed := failed a + 1;
         gray := gray a; out := out a ++ [CouldNotRead fname] |}
  | Some img =>
      let g := cvtColor img in
      let '(found, corners) := findChessboardCorners g CHESSBOARD_SIZE in
      if found then
        let corners2 := cornerSubPix g corners (11, 11) (-1, -1)%Z criteria in
        {| objpoints := objpoints a ++ [objp];
           imgpoints := imgpoints a ++ [corners2];
           successful := successful a + 1; failed := failed a;
           gray := Some g; out := out a ++ [Detected fname] |}
      else
        {| objpoints := objpoints a; imgpoints := imgpoints a;
           successful := successful a; failed := failed a + 1;
           gray := Some g; out := out a ++ [NotDetected fname] |}
  end.

Definition process_images (images : list string) : Acc Image :=
  fold_left process_image images acc0.

(** *** Quality and the saved file *)

(** Lines 120 to 127. *)
Definition quality (ret : float) : Msg :=
  if flt ret (Fin 0.5) then Excellent
  else if flt ret (Fin 1.0) then Good
  else if flt ret (Fin 2.0) then Acceptable
  else Poor.

(** Lines 142 to 146: the dict that [yaml.dump] writes. *)
Record calib_data : Type := {
  camera_matrix : list (list float);
  dist_coeff : list (list float);
  reprojection_error : float
}.

(** How a run ends: the messages, the status, and what has been written to
    [OUTPUT_FILE]. *)
Record Run : Type := {
  messages : list Msg;
  stop : Stop;
  written : option calib_data
}.

(** The whole script, over the directory as [glob] lists it: [None] when
    [IMAGE_DIR] does not exist.  Running to the last line is status 0. *)
Definition main (dir : option (list string)) : Run :=
  match dir with
  | None =>
      {| messages := [ErrNoDirectory]; stop := SysExit 1; written := None |}
  | Some images =>
      if (length images =? 0)%nat then
        {| messages := [ErrNoImages]; stop := SysExit 1; written := None |}
      else
        let a := process_images images in
        let msgs := out a ++ [Results (successful a) (failed a)] in
        if (successful a <? 3)%nat then
          {| messages := msgs ++ [ErrNotEnough (successful a)];
             stop := SysExit 1; written := None |}
        else
          match gray a with
          | None =>     (* gray.shape on None *)
              {| messages := msgs; stop := Raise AttributeError;
                 written := None |}
          | Some g =>
              match calibrateCamera (objpoints a) (imgpoints a)
                      (shape_rev g) with
              | None =>
                  {| messages := msgs ++ [ErrCalibrationFailed];
                     stop := SysExit 1; written := None |}
              | Some c =>
                  {| messages := msgs ++ [quality (rms c); Saved];
                     stop := SysExit 0;
                     written :=
                       Some {| camera_matrix := mtx c;
                               dist_coeff := dist c;
                               reprojection_error := rms c |} |}
              end
          end
  end.

(** *** Observations on a run *)

(** The image is one the loop counts as successful. *)
Definition is_sample (fname : string) : bool :=
  match imread fname with
  | None => false
  | Some img => fst (findChessboardCorners (cvtColor img) CHESSBOARD_SIZE)
  end.

Definition successCount (images : list string) : nat :=
  length (List.filter is_sample images).

(** The run is refused for lack of samples: it prints one of the two
    diagnostics of lines 53 to 56 and 97 to 101. *)
Definition lacks_samples (m : Msg) : bool :=
  match m with
  | ErrNoImages | ErrNotEnough _ => true
  | _ => false
  end.

Definition insufficient (r : Run) : bool :=
  existsb lacks_samples (messages r).

(** The [i]-th estimate of a corner. *)
Fixpoint iterate (step : Point2 -> Point2) (i : nat) (p : Point2) : Point2 :=
  match i with
  | 0 => p
  | S n => iterate step n (step p)
  end.

(** The change between the estimates [i] and [i + 1] is below [epsilon]. *)
Definition below (step : Point2 -> Point2) (epsilon : R) (i : nat)
  (p : Point2) : bool :=
  flt (displacement (iterate step i p) (iterate step (S i) p)) (Fin epsilon).

(** A message of the loop over the images. *)
Definition loop_msg (m : Msg) : Prop :=
  match m with
  | CouldNotRead _ | Detected _ | NotDetected _ => True
  | _ => False
  end.

End Script.

(** *** A library for the examples

    An image is known by its file name: one file cannot be read, and the
    pattern is found in the files whose name starts with "board".  The
    refinement step and the solver are parameters of the example. *)
Definition lib_example (step : Point2 -> Point2)
  (solve : nat -> option Calibration) : Lib string :=
  {| imread := fun f =>
       if String.eqb f "unreadable.jpg" then None else Some f;
     cvtColor := fun img => img;
     shape_rev := fun _ => (640, 480);
     findChessboardCorners := fun g _ =>
       if String.prefix "board" g then (true, [(Fin 0, Fin 0)])
       else (false, []);
     subpix_step := fun _ _ _ => step;
     calibrateCamera := fun objpoints _ _ => solve (length objpoints) |}.

(** A refinement that has converged. *)
Definition step_still (p : Point2) : Point2 := p.

(** A solver that returns a calibration with the RMS error [e]. *)
Definition calibration_with (e : R) : Calibration :=
  {| rms := Fin e;
     mtx := [ [Fin 800; Fin 0; Fin 320];
              [Fin 0; Fin 800; Fin 240];
              [Fin 0; Fin 0; Fin 1] ];
     dist := [ [Fin 0; Fin 0; Fin 0; Fin 0; Fin 0] ];
     rvecs := []; tvecs := [] |}.

Definition solve_with (e : R) (_ : nat) : option Calibration :=
  Some (calibration_with e).

End Calibrate.

(** ** capture.py *)

Module Capture.
Import Float.

Definition Point2 : Type := float * float.

Definition SAVE_DIR : string := "calib_images".
Definition NUM_IMAGES : nat := 10.
Definition CHESSBOARD_SIZE : nat * nat := (9, 7).

(** The OpenCV routines [capture.py] calls, over the pixel contents [Pixels]
    of an image array.  The two drawing routines write into the array they
    are given: their model is the new content of that array. *)
Class Lib (Pixels : Type) : Type := {
  cvtColor : Pixels -> Pixels;
  findChessboardCorners : Pixels -> nat * nat -> bool * list Point2;
  drawChessboardCorners : Pixels -> nat * nat -> list Point2 -> bool -> Pixels;
  putText : Pixels -> string -> Z * Z -> Pixels
}.

(** [f"img_{count:02d}.jpg"]: the decimal digits, zero-padded to width 2. *)
Definition fmt_02d (n : nat) : string :=
  let s := NilEmpty.string_of_uint (Nat.to_uint n) in
  if (String.length s <? 2)%nat then ("0" ++ s)%string else s.

(** [os.path.join(a, b)] for a relative [b] *)
Definition path_join (a b : string) : string := (a ++ "/" ++ b)%string.

Section Script.
Context {Pixels : Type} `{lib : Lib Pixels}.

Inductive Msg : Type :=
| SavedFile (filename : string)
| CapturedAll
| Exiting (count : nat).

(** Image arrays are objects: a variable holds a reference into the heap,
    and two variables may hold the same reference.  The rest of the state
    is the counter, the files written, the images shown and the terminal. *)
Record State : Type := {
  heap : gmap positive Pixels;
  count : nat;
  disk : gmap string Pixels;
  screen : list Pixels;
  out : list Msg
}.

Definition state0 : State :=
  {| heap := ∅; count := 0; disk := ∅; screen := []; out := [] |}.

Definition set_heap (h : gmap positive Pixels) (st : State) : State :=
  {| heap := h; count := count st; disk := disk st; screen := screen st;
     out := out st |}.

(** Commands on the state; [None] is a dangling reference. *)
Definition Cmd (A : Type) : Type := State -> option (A * State).

Definition cret {A} (a : A) : Cmd A := fun st => Some (a, st).

Definition cbind {A B} (m : Cmd A) (k : A -> Cmd B) : Cmd B :=
  fun st =>
    match m st with
    | Some (a, st') => k a st'
    | None => None
    end.

(** A new array with the content [px]. *)
Definition alloc (px : Pixels) : Cmd positive :=
  fun st =>
    let l := fresh (dom (heap st)) in
    Some (l, set_heap (<[l := px]> (heap st)) st).

Definition load (l : positive) : Cmd Pixels :=
  fun st =>
    match heap st !! l with
    | Some px => Some (px, st)
    | None => None
    end.

(** Writing into the array [l] in place. *)
Definition modify (l : positive) (f : Pixels -> Pixels) : Cmd unit :=
  fun st =>
    match heap st !! l with
    | Some px => Some (tt, set_heap (<[l := f px]> (heap st)) st)
    | None => None
    end.

(** [a.copy()] *)
Definition copy (l : positive) : Cmd positive :=
  cbind (load l) alloc.

(** [cv2.imshow("Webcam", a)] *)
Definition imshow (l : positive) : Cmd unit :=
  cbind (load l) (fun px st =>
    Some (tt, {| heap := heap st; count := count st; disk := disk st;
                 screen := screen st ++ [px]; out := out st |})).

(** [cv2.imwrite(filename, a)]: the file holds the image of the array. *)
Definition imwrite (filename : string) (l : positive) : Cmd unit :=
  cbind (load l) (fun px st =>
    Some (tt, {| heap := heap st; count := count st;
                 disk := <[filename := px]> (disk st);
                 screen := screen st; out := out st |})).

Definition print (m : Msg) : Cmd unit :=
  fun st =>
    Some (tt, {| heap := heap st; count := count st; disk := disk st;
                 screen := screen st; out := out st ++ [m] |}).

Definition get_count : Cmd nat := fun st => Some (count st, st).

Definition set_count (n : nat) : Cmd unit :=
  fun st =>
    Some (tt, {| heap := heap st; count := n; disk := disk st;
                 screen := screen st; out := out st |}).

End Script.

Declare Scope cmd_scope.
Delimit Scope cmd_scope with cmd.
Notation "'do' x <- m ; k" := (cbind m (fun x => k))
  (at level 10, x name, m at level 100, k at level 200) : cmd_scope.
Notation "m ;; k" := (cbind m (fun _ => k))
  (at level 100, k at level 200, right associativity) : cmd_scope.

(** One turn of the camera and the keyboard: what [cap.read()] returns
    ([None] when [ret] is false) and what [cv2.waitKey(1)] returns. *)
Record Tick (Pixels : Type) : Type := {
  frame : option Pixels;
  key : Z
}.
Arguments frame {Pixels} _.
Arguments key {Pixels} _.

Section Loop.
Context {Pixels : Type} `{lib : Lib Pixels}.

(** Lines 45 to 82: one iteration of [while True]; the result tells whether
    the loop goes on. *)
Definition iteration (t : Tick Pixels) : Cmd bool :=
  match frame t with
  | None => cret false
  | Some px =>
      (do frame <- alloc px;
       do display <- copy frame;
       do fpx <- load frame;
       do gray <- alloc (cvtColor fpx);
       do gpx <- load gray;
       let '(found, corners) := findChessboardCorners gpx CHESSBOARD_SIZE in
       (if found then
          modify display
            (fun d => drawChessboardCorners d CHESSBOARD_SIZE corners found) ;;
          modify display (fun d => putText d "Press SPACE to save" (10, 30)%Z)
        else cret tt) ;;
       imshow display ;;
       if (key t =? 32)%Z && found then
         do n <- get_count;
         let filename :=
           path_join SAVE_DIR ("img_" ++ fmt_02d n ++ ".jpg")%string in
         imwrite filename frame ;;
         print (SavedFile filename) ;;
         set_count (n + 1) ;;
         if (NUM_IMAGES <=? n + 1)%nat then print CapturedAll ;; cret false
         else cret true
       else if (key t =? 27)%Z then
         do n <- get_count;
         print (Exiting n) ;; cret false
       else cret true)%cmd
  end.

(** The loop over the ticks the devices deliver. *)
Fixpoint main_loop (ticks : list (Tick Pixels)) : Cmd unit :=
  match ticks with
  | [] => cret tt
  | t :: rest =>
      (do continue <- iteration t;
       if continue then main_loop rest else cret tt)%cmd
  end.

(** The file name for the counter [n], and the image shown for the frame
    [px]: the frame itself, or the frame with the corners and the text drawn
    over it. *)
Definition filename_of (n : nat) : string :=
  path_join SAVE_DIR ("img_" ++ fmt_02d n ++ ".jpg")%string.

Definition display_of (px : Pixels) : Pixels :=
  let '(found, corners) :=
    findChessboardCorners (cvtColor px) CHESSBOARD_SIZE in
  if found then
    putText (drawChessboardCorners px CHESSBOARD_SIZE corners found)
      "Press SPACE to save" (10, 30)%Z
  else px.

(** The frame of the tick is written to disk: SPACE with the pattern
    found. *)
Definition captures (t : Tick Pixels) (px : Pixels) : Prop :=
  frame t = Some px /\ key t = 32%Z /\
  fst (findChessboardCorners (cvtColor px) CHESSBOARD_SIZE) = true.

End Loop.

(** *** A library for the examples

    An image is the list of what is drawn on it, the scene first. *)
Definition lib_example : Lib (list string) :=
  {| cvtColor := fun px => px;
     findChessboardCorners := fun g _ =>
       (existsb (String.eqb "chessboard") g, [(Fin 0, Fin 0)]);
     drawChessboardCorners := fun px _ _ _ => px ++ ["corners"];
     putText := fun px s _ => px ++ [s] |}.

End Capture.

(** ** Further observations on the three scripts *)

Module ArucoPoseRun.
Import Float Py ArucoPose.

(** The ticks whose frame the loop of [aruco_pose.py] reads: it stops
    before the first tick on which the camera delivers no frame, and with
    the first tick on which the solver raises or the key quits. *)
Fixpoint processed {Image ndarray : Type} `{lib : Lib Image ndarray}
  (camera_matrix dist_coeffs : ndarray) (ticks : list (Tick Image))
  : list (Tick Image) :=
  match ticks with
  | [] => []
  | t :: rest =>
      match frame t with
      | None => []
      | Some fr =>
          match frame_raise camera_matrix dist_coeffs fr with
          | Some _ => [t]
          | None =>
              if is_quit (key t) then [t]
              else t :: processed camera_matrix dist_coeffs rest
          end
      end
  end.

(** The frames of a list of ticks. *)
Definition frames_of {Image : Type} (ticks : list (Tick Image))
  : list Image :=
  omap frame ticks.

(** A library whose [cv2.Rodrigues] is the Rodrigues formula and whose
    [np.array] refuses every value. *)
Definition lib_strict : Lib (list (list Point2 * Z)) yaml :=
  {| np_array := fun _ => inl ValueError;
     Rodrigues := Rodrigues_spec DBL_EPSILON;
     linalg_norm := fun _ => NaN;
     detectMarkers := fun fr =>
       (map fst fr, match fr with [] => None | _ => Some (map snd fr) end);
     solvePnP := fun _ _ _ _ => inl Cv2Error |}.

(** A calibration file with the two fields. *)
Definition good_calibration : FileContent :=
  Parses (YMap [("camera_matrix", YSeq []); ("dist_coeff", YSeq [])]).

End ArucoPoseRun.

Module CalibrateRun.
Import Float Py Calibrate.

Section Obs.
Context {Image : Type} `{lib : Lib Image}.

(** The line the loop prints for an image. *)
Definition report (fname : string) : Msg :=
  match imread fname with
  | None => CouldNotRead fname
  | Some img =>
      if fst (findChessboardCorners (cvtColor img) CHESSBOARD_SIZE)
      then Detected fname else NotDetected fname
  end.

(** The refined corners of an image that is a sample. *)
Definition sample_corners (fname : string) : list Point2 :=
  match imread fname with
  | None => []
  | Some img =>
      let g := cvtColor img in
      cornerSubPix g (snd (findChessboardCorners g CHESSBOARD_SIZE))
        (11, 11) (-1, -1)%Z criteria
  end.

(** The grey images of the files that can be read, in order. *)
Definition grays (images : list string) : list Image :=
  omap (fun f => option_map cvtColor (imread f)) images.

End Obs.

End CalibrateRun.

Module CaptureRun.
Import Float Capture.

(** The names of the first [n] files the script writes. *)
Definition names_upto (n : nat) : list string :=
  map filename_of (seq 0 n).

(** The frames of a list of ticks. *)
Definition frames_of {Pixels : Type} (ticks : list (Tick Pixels))
  : list Pixels :=
  omap frame ticks.

(** SPACE is read on a frame in which the pattern is found: the condition
    of line 69. *)
Definition is_capture {Pixels : Type} `{lib : Lib Pixels} (t : Tick Pixels)
  : bool :=
  match frame t with
  | Some px =>
      (key t =? 32)%Z
      && fst (findChessboardCorners (cvtColor px) CHESSBOARD_SIZE)
  | None => false
  end.

End CaptureRun.

(** ** read_video.py *)

Module ReadVideo.

(** One turn of the video and the keyboard: what [cap.read()] returns
    ([None] when [ret] is false) and what [cv2.waitKey(30)] returns. *)
Record Tick (Image : Type) : Type := {
  frame : option Image;
  key : Z
}.
Arguments frame {Image} _.
Arguments key {Image} _.

(** Lines 3 to 9: the frames [cv2.imshow] is given, for a capture that is
    opened; the end of the list stands for the end of the video. *)
Fixpoint play {Image : Type} (ticks : list (Tick Image)) : list Image :=
  match ticks with
  | [] => []
  | t :: rest =>
      match frame t with
      | None => []
      | Some fr =>
          fr :: (if (Z.land (key t) 255 =? 27)%Z then [] else play rest)
      end
  end.

(** The whole script, over whether [cv2.VideoCapture] opened the file. *)
Definition main {Image : Type} (opened : bool) (ticks : list (Tick Image))
  : list Image :=
  if opened then play ticks else [].

(** A tick with a frame, on which ESC is not pressed. *)
Definition running {Image : Type} (t : Tick Image) : bool :=
  match frame t with
  | Some _ => negb (Z.land (key t) 255 =? 27)%Z
  | None => false
  end.

End ReadVideo.

(* ===================================================================== *)
(** * Part II: properties *)
(* ===================================================================== *)

(** ** Floating-point values *)

Module FloatFacts.
Import Float.
Local Open Scope R_scope.

Lemma Rlt_dec_true (x y : R) (A : Type) (a b : A) :
  x < y -> (if Rlt_dec x y then a else b) = a.
Proof. intros H. destruct (Rlt_dec x y); [reflexivity | contradiction]. Qed.

Lemma Rlt_dec_false (x y : R) (A : Type) (a b : A) :
  ~ x < y -> (if Rlt_dec x y then a else b) = b.
Proof. intros H. destruct (Rlt_dec x y); [contradiction | reflexivity]. Qed.

Lemma Rle_dec_true (x y : R) (A : Type) (a b : A) :
  x <= y -> (if Rle_dec x y then a else b) = a.
Proof. intros H. destruct (Rle_dec x y); [reflexivity | contradiction]. Qed.

(** The angle of a point lies in [[-PI, PI]]. *)
Lemma atan2_bound (y x : R) : - PI <= atan2 y x <= PI.
Proof.
  pose proof PI_RGT_0 as Hpi.
  unfold atan2.
  destruct (Rlt_dec 0 x) as [Hx | Hx].
  - pose proof (atan_bound (y / x)). lra.
  - destruct (Rlt_dec x 0) as [Hx' | Hx'].
    + pose proof (Rinv_lt_0_compat x Hx') as Hinv.
      pose proof (atan_bound (y / x)) as Hb.
      destruct (Rle_dec 0 y) as [Hy | Hy].
      * assert (Hq : y / x <= 0) by (unfold Rdiv; nra).
        assert (atan (y / x) <= 0).
        { rewrite <- atan_0.
          destruct Hq as [Hq | ->]; [left; now apply atan_increasing | right; reflexivity]. }
        lra.
      * assert (Hq : 0 < y / x) by (unfold Rdiv; nra).
        assert (0 < atan (y / x)) by (rewrite <- atan_0; now apply atan_increasing).
        lra.
    + destruct (Rlt_dec 0 y); [lra | ]. destruct (Rlt_dec y 0); lra.
Qed.

(** The angle of a point of the right half-plane lies in
    [[-PI/2, PI/2]]. *)
Lemma atan2_right_half (y x : R) :
  0 <= x -> - (PI / 2) <= atan2 y x <= PI / 2.
Proof.
  intros Hx. pose proof PI_RGT_0 as Hpi.
  unfold atan2.
  destruct (Rlt_dec 0 x) as [Hx0 | Hx0].
  - pose proof (atan_bound (y / x)). lra.
  - destruct (Rlt_dec x 0); [lra | ].
    destruct (Rlt_dec 0 y); [lra | ]. destruct (Rlt_dec y 0); lra.
Qed.

Lemma atan2_pos_x (y x : R) : 0 < x -> atan2 y x = atan (y / x).
Proof. intros H. unfold atan2. now rewrite Rlt_dec_true. Qed.

Lemma atan2_up : atan2 1 0 = PI / 2.
Proof.
  unfold atan2. rewrite !(Rlt_dec_false 0 0) by lra.
  now rewrite Rlt_dec_true by lra.
Qed.

Lemma fneg_nan (a : float) : is_nan (fneg a) = is_nan a.
Proof. now destruct a. Qed.

(** A square is [+inf] or a finite non-negative number. *)
Lemma fpow2_cases (a : float) :
  is_nan a = false -> fpow2 a = PInf \/ exists s, fpow2 a = Fin s /\ 0 <= s.
Proof.
  destruct a as [ | | | x]; cbn; intros H; try discriminate; auto.
  right. exists (x * x). split; [reflexivity | nra].
Qed.

(** So is the square root of a sum of two squares. *)
Lemma hypot_cases (a b : float) :
  is_nan a = false -> is_nan b = false ->
  fsqrt (fadd (fpow2 a) (fpow2 b)) = PInf \/
  exists s, fsqrt (fadd (fpow2 a) (fpow2 b)) = Fin s /\ 0 <= s.
Proof.
  intros Ha Hb.
  destruct (fpow2_cases a Ha) as [-> | (s & -> & Hs)];
    destruct (fpow2_cases b Hb) as [-> | (t & -> & Ht)]; cbn; auto.
  right. rewrite Rlt_dec_false by lra.
  exists (sqrt (s + t)). split; [reflexivity | apply sqrt_pos].
Qed.

Lemma hypot_zero : fsqrt (fadd (fpow2 (Fin 0)) (fpow2 (Fin 0))) = Fin 0.
Proof.
  cbn [fpow2 fmul fadd fsqrt]. rewrite Rlt_dec_false by lra.
  f_equal. replace (0 * 0 + 0 * 0) with 0 by ring. apply sqrt_0.
Qed.

(** [np.arctan2] of two numbers is a finite angle. *)
Lemma fatan2_range (y x : float) :
  is_nan y = false -> is_nan x = false ->
  exists v, fatan2 y x = Fin v /\ - PI <= v <= PI.
Proof.
  pose proof PI_RGT_0 as Hpi.
  destruct y as [ | | | b], x as [ | | | a]; cbn; intros Hy Hx;
    try discriminate; try (eexists; split; [reflexivity | lra]).
  - destruct (Rlt_dec b 0); eexists; (split; [reflexivity | lra]).
  - exists (atan2 b a). split; [reflexivity | apply atan2_bound].
Qed.

Lemma fatan2_right_half (y x : float) :
  is_nan y = false -> x = PInf \/ (exists s, x = Fin s /\ 0 <= s) ->
  exists v, fatan2 y x = Fin v /\ - (PI / 2) <= v <= PI / 2.
Proof.
  pose proof PI_RGT_0 as Hpi.
  intros Hy [-> | (s & -> & Hs)]; destruct y as [ | | | b]; cbn in *;
    try discriminate; try (eexists; split; [reflexivity | lra]).
  exists (atan2 b s). split; [reflexivity | now apply atan2_right_half].
Qed.

Lemma fle_not_flt (a b : float) : fle a b = true -> flt b a = false.
Proof.
  destruct a as [ | | | x], b as [ | | | y]; unfold fle, flt;
    try reflexivity; try discriminate.
  destruct (Rle_dec x y); [ | discriminate].
  destruct (Rlt_dec y x); [lra | reflexivity].
Qed.

(** An angle within [PI / c] of zero is within [180 / c] degrees. *)
Lemma degrees_scale (v c : R) :
  0 < c -> - (PI / c) <= v <= PI / c ->
  - (180 / c) <= v * (180 / PI) <= 180 / c.
Proof.
  intros Hc Hv. pose proof PI_RGT_0 as Hpi.
  assert (E : v * (180 / PI) = (v * c / PI) * (180 / c)) by (field; lra).
  assert (Hvc : - PI <= v * c <= PI).
  { assert (PI / c * c = PI) by (field; lra). nra. }
  assert (B : -1 <= v * c / PI <= 1).
  { split; apply Rmult_le_reg_r with PI; try lra;
      unfold Rdiv; rewrite Rmult_assoc, Rinv_l by lra; lra. }
  rewrite E. assert (0 < 180 / c) by (apply Rdiv_lt_0_compat; lra). nra.
Qed.

End FloatFacts.

(** ** aruco_pose.py: the Euler angles *)

Module ArucoPoseTheory.
Import Float Py ArucoPose FloatFacts.

Section Euler.
Context {Image ndarray : Type} `{lib : Lib Image ndarray}.
Local Open Scope R_scope.

(** C1.  For the matrix [Rm] that [cv2.Rodrigues] returns for the rotation
    vector, with [sy = sqrt(Rm[0,0]^2 + Rm[1,0]^2)]: when [sy >= 1e-6] the
    result is [roll = atan2(Rm[2,1], Rm[2,2])], [pitch = atan2(-Rm[2,0], sy)],
    [yaw = atan2(Rm[1,0], Rm[0,0])]; when [sy < 1e-6] it is
    [roll = atan2(-Rm[1,2], Rm[1,1])], [pitch = atan2(-Rm[2,0], sy)] and
    [yaw = 0] exactly; the angles are in degrees. *)
Theorem euler_branches (rvec : Vec3) :
  let Rm := Rodrigues rvec in
  let sy := fsqrt (fadd (fpow2 (Rm 0 0)%nat) (fpow2 (Rm 1 0)%nat)) in
  (fle (Fin 1e-6) sy = true ->
     rotation_vector_to_euler rvec =
       (np_degrees (fatan2 (Rm 2 1)%nat (Rm 2 2)%nat),
        np_degrees (fatan2 (fneg (Rm 2 0)%nat) sy),
        np_degrees (fatan2 (Rm 1 0)%nat (Rm 0 0)%nat))) /\
  (flt sy (Fin 1e-6) = true ->
     rotation_vector_to_euler rvec =
       (np_degrees (fatan2 (fneg (Rm 1 2)%nat) (Rm 1 1)%nat),
        np_degrees (fatan2 (fneg (Rm 2 0)%nat) sy),
        Fin 0)).
Proof.
  intros Rm sy. unfold rotation_vector_to_euler. fold Rm. fold sy.
  split; intros H.
  - rewrite (fle_not_flt _ _ H). reflexivity.
  - rewrite H. cbn. f_equal. f_equal. ring.
Qed.

(** C4, as the code has it.  The conversion is a function defined on every
    rotation vector, and whenever the matrix of the vector has no NaN entry,
    in the gimbal-lock branch as in the other, it returns three finite
    angles: none is NaN, none is infinite.  There is no guard on the vector:
    a NaN in the matrix reaches the angles. *)
Theorem euler_no_nan_no_inf (rvec : Vec3) :
  matrix_has_no_nan (Rodrigues rvec) ->
  exists roll pitch yaw : R,
    rotation_vector_to_euler rvec = (Fin roll, Fin pitch, Fin yaw).
Proof.
  intros Hm. unfold rotation_vector_to_euler.
  set (Rm := Rodrigues rvec) in *.
  set (sy := fsqrt _).
  assert (Hsy : is_nan sy = false).
  { destruct (hypot_cases (Rm 0 0)%nat (Rm 1 0)%nat) as [E | (s & E & _)];
      try (apply Hm; lia); unfold sy; rewrite E; reflexivity. }
  assert (Hfin : forall y x, is_nan y = false -> is_nan x = false ->
                   exists v, np_degrees (fatan2 y x) = Fin v).
  { intros y x Hy Hx. destruct (fatan2_range y x Hy Hx) as (v & -> & _).
    eexists. reflexivity. }
  destruct (Hfin (fneg (Rm 2 0)%nat) sy) as (p & Hp);
    [rewrite fneg_nan; apply Hm; lia | exact Hsy | ].
  destruct (negb (flt sy (Fin 1e-6))); cbn [np_degrees3].
  - destruct (Hfin (Rm 2 1)%nat (Rm 2 2)%nat) as (r & Hr); try (apply Hm; lia).
    destruct (Hfin (Rm 1 0)%nat (Rm 0 0)%nat) as (y & Hy); try (apply Hm; lia).
    exists r, p, y. now rewrite Hr, Hp, Hy.
  - destruct (Hfin (fneg (Rm 1 2)%nat) (Rm 1 1)%nat) as (r & Hr);
      [rewrite fneg_nan; apply Hm; lia | apply Hm; lia | ].
    exists r, p, (0 * (180 / PI)). now rewrite Hr, Hp.
Qed.

(** C9, as the code has it.  When the three entries of the matrix the pitch
    is computed from are not NaN, the pitch returned lies between -90 and 90
    degrees, in both branches: it is the angle of a point whose abscissa
    [sy] is a square root, hence not negative.  A NaN among the three gives
    a NaN pitch. *)
Theorem pitch_range (rvec : Vec3) :
  let Rm := Rodrigues rvec in
  is_nan (Rm 0 0)%nat = false ->
  is_nan (Rm 1 0)%nat = false ->
  is_nan (Rm 2 0)%nat = false ->
  exists p, snd (fst (rotation_vector_to_euler rvec)) = Fin p /\ -90 <= p <= 90.
Proof.
  intros Rm H00 H10 H20. unfold rotation_vector_to_euler. fold Rm.
  set (sy := fsqrt _).
  destruct (fatan2_right_half (fneg (Rm 2 0)%nat) sy) as (v & E & Hv).
  { now rewrite fneg_nan. }
  { apply hypot_cases; assumption. }
  exists (v * (180 / PI)). split.
  - destruct (negb (flt sy (Fin 1e-6))); cbn; rewrite E; reflexivity.
  - pose proof (degrees_scale v 2 ltac:(lra) Hv). lra.
Qed.

End Euler.

(** *** The gimbal lock, on the Rodrigues formula *)

Section GimbalLock.
Local Open Scope R_scope.

(** The matrix of a finite vector is finite. *)
Lemma Rodrigues_spec_no_nan (eps x y z : R) :
  0 < eps ->
  matrix_has_no_nan (Rodrigues_spec eps (Fin x, Fin y, Fin z)).
Proof.
  intros _ i j _ _. unfold Rodrigues_spec.
  destruct (Rlt_dec _ eps); reflexivity.
Qed.

Lemma DBL_EPSILON_pos : 0 < DBL_EPSILON.
Proof. unfold DBL_EPSILON. lra. Qed.

Lemma Rodrigues_y90 (i j : nat) :
  Rodrigues_spec DBL_EPSILON y90 i j =
    Fin (mat_I i j + cross_matrix 0 1 0 i j
         + mat_mul (cross_matrix 0 1 0) (cross_matrix 0 1 0) i j).
Proof.
  pose proof PI2_1 as Hpi.
  unfold Rodrigues_spec, y90.
  replace (0 * 0 + PI / 2 * (PI / 2) + 0 * 0) with (PI / 2 * (PI / 2)) by ring.
  rewrite sqrt_square by lra.
  rewrite Rlt_dec_false by (unfold DBL_EPSILON; lra).
  rewrite sin_PI2, cos_PI2.
  replace (0 / (PI / 2)) with 0 by (field; lra).
  replace (PI / 2 / (PI / 2)) with 1 by (field; lra).
  f_equal. ring.
Qed.

Lemma Rodrigues_y90_entries :
  let Rm := Rodrigues_spec DBL_EPSILON y90 in
  Rm 0%nat 0%nat = Fin 0 /\ Rm 1%nat 0%nat = Fin 0 /\
  Rm 2%nat 0%nat = Fin (-1) /\
  Rm 1%nat 1%nat = Fin 1 /\ Rm 1%nat 2%nat = Fin 0.
Proof.
  cbv zeta. rewrite !Rodrigues_y90.
  repeat split; unfold mat_mul, cross_matrix, mat_I; cbn [Nat.eqb];
    f_equal; ring.
Qed.

(** At pitch +90 degrees the vector is in the singular branch, and the
    angles are 0, 90 and 0. *)
Lemma euler_branches_gimbal_lock :
  rotation_vector_to_euler (lib := lib_example solver_fails) y90
  = (Fin 0, Fin 90, Fin 0).
Proof.
  pose proof PI_RGT_0 as Hpi.
  destruct Rodrigues_y90_entries as (E00 & E10 & E20 & E11 & E12).
  destruct (euler_branches (lib := lib_example solver_fails) y90) as [_ Hs].
  cbn [Rodrigues lib_example] in Hs.
  rewrite E00, E10, E20, E11, E12, hypot_zero in Hs.
  rewrite Hs.
  - cbn [np_degrees fatan2 fneg fmul].
    rewrite atan2_pos_x by lra.
    replace (- -1) with 1 by ring. rewrite atan2_up.
    replace (- 0 / 1) with 0 by field. rewrite atan_0.
    f_equal; f_equal; f_equal; field; lra.
  - unfold flt. apply Rlt_dec_true. lra.
Defined.

(** The angles are finite at the gimbal lock and at [theta = 0]. *)
Lemma euler_no_nan_no_inf_special_cases :
  ((exists roll pitch yaw : R,
      rotation_vector_to_euler (lib := lib_example solver_fails) y90
      = (Fin roll, Fin pitch, Fin yaw)) /\
   (exists roll pitch yaw : R,
      rotation_vector_to_euler (lib := lib_example solver_fails) no_rotation
      = (Fin roll, Fin pitch, Fin yaw)))%type.
Proof.
  split.
  - apply (euler_no_nan_no_inf (lib := lib_example solver_fails) y90).
    apply Rodrigues_spec_no_nan, DBL_EPSILON_pos.
  - apply (euler_no_nan_no_inf (lib := lib_example solver_fails) no_rotation).
    apply Rodrigues_spec_no_nan, DBL_EPSILON_pos.
Defined.

Lemma pitch_range_gimbal_lock :
  exists p,
    snd (fst (rotation_vector_to_euler (lib := lib_example solver_fails) y90))
    = Fin p /\ -90 <= p <= 90.
Proof.
  apply (pitch_range (lib := lib_example solver_fails) y90);
    apply Rodrigues_spec_no_nan; (apply DBL_EPSILON_pos || lia).
Defined.

(** C4, as stated, fails: a rotation vector with a NaN component has a
    matrix of NaN, and the three angles returned are NaN. *)
Lemma nan_vector_gives_nan_angles :
  rotation_vector_to_euler (lib := lib_example solver_fails)
    (NaN, Fin 0, Fin 0)
  = (NaN, NaN, NaN) /\
  ~ (forall rvec : Vec3, exists roll pitch yaw : R,
       rotation_vector_to_euler (lib := lib_example solver_fails) rvec
       = (Fin roll, Fin pitch, Fin yaw)).
Proof.
  split; [reflexivity | ].
  intros H. destruct (H (NaN, Fin 0, Fin 0)) as (r & p & y & E).
  discriminate E.
Qed.

(** C9, as stated, fails: on a rotation vector with a NaN component the
    pitch returned is NaN, which is not between -90 and 90. *)
Lemma nan_vector_pitch_is_nan :
  snd (fst (rotation_vector_to_euler (lib := lib_example solver_fails)
              (Fin 0, NaN, Fin 0)))
  = NaN /\
  ~ (forall rvec : Vec3, exists p,
       snd (fst (rotation_vector_to_euler (lib := lib_example solver_fails)
                   rvec))
       = Fin p /\ -90 <= p <= 90).
Proof.
  split; [reflexivity | ].
  intros H. destruct (H (Fin 0, NaN, Fin 0)) as (p & E & _).
  discriminate E.
Qed.

End GimbalLock.

(** ** aruco_pose.py: the frame loop *)

Section Loop.
Context {Image ndarray : Type} `{lib : Lib Image ndarray}.
Variables cm dc : ndarray.

Lemma draws_app (a b : list Event) : draws (a ++ b) = draws a ++ draws b.
Proof. unfold draws. apply flat_map_app. Qed.

Lemma printed_app (a b : list Event) :
  printed (a ++ b) = printed a ++ printed b.
Proof. unfold printed. apply flat_map_app. Qed.

Lemma frames_shown_app (a b : list Event) :
  frames_shown (a ++ b) = frames_shown a + frames_shown b.
Proof. unfold frames_shown. now rewrite List.filter_app, length_app. Qed.

(** The loop over the markers: every solution is drawn, and when the flag
    is set the first one is printed and the flag cleared; an exception of
    the solver ends the loop. *)
Lemma for_markers_spec (pd : bool) (ms : list (list Point2 * Z)) :
  let poses := solved cm dc ms in
  snd (for_markers cm dc pd ms) =
    match raised cm dc ms with
    | Some e => inl (Raise e)
    | None => inr (pd && no_pose poses)
    end /\
  draws (fst (for_markers cm dc pd ms)) = poses /\
  printed (fst (for_markers cm dc pd ms))
    = (if pd then firstn 1 poses else []) /\
  frames_shown (fst (for_markers cm dc pd ms)) = 0.
Proof.
  unfold solved, raised. revert pd.
  induction ms as [ | [c id] rest IH]; intros pd;
    cbn [for_markers solve_all fst snd].
  - cbn. rewrite andb_true_r. destruct pd; auto.
  - destruct (solvePnP marker_points c cm dc) as [e | [[success rvec] tvec]].
    + cbn. destruct pd; auto.
    + destruct success.
      * destruct (IH false) as (H1 & H2 & H3 & H4).
        destruct (solve_all cm dc rest) as [ps r].
        assert (E : (if pd
                     then let '(evs, r0) := for_markers cm dc false rest in
                          (DrawPose (pose_of id rvec tvec)
                             :: PrintPose (pose_of id rvec tvec) :: evs, r0)
                     else let '(evs, r0) := for_markers cm dc pd rest in
                          (DrawPose (pose_of id rvec tvec) :: evs, r0))
                    = ((DrawPose (pose_of id rvec tvec)
                          :: (if pd then [PrintPose (pose_of id rvec tvec)]
                              else []))
                         ++ fst (for_markers cm dc false rest),
                       snd (for_markers cm dc false rest))).
        { destruct pd; destruct (for_markers cm dc false rest); reflexivity. }
        rewrite E. cbn [fst snd].
        rewrite draws_app, printed_app, frames_shown_app, H1, H2, H3, H4.
        rewrite app_nil_r.
        destruct pd; cbn; rewrite ?take_0; auto.
      * specialize (IH pd). destruct (solve_all cm dc rest) as [ps r].
        exact IH.
Qed.

Lemma process_frame_spec (pd : bool) (fr : Image) :
  let poses := frame_poses cm dc fr in
  snd (process_frame cm dc pd fr) =
    match frame_raise cm dc fr with
    | Some e => inl (Raise e)
    | None => inr (pd && no_pose poses)
    end /\
  draws (fst (process_frame cm dc pd fr)) = poses /\
  printed (fst (process_frame cm dc pd fr))
    = (if pd then firstn 1 poses else []) /\
  frames_shown (fst (process_frame cm dc pd fr))
    = match frame_raise cm dc fr with Some _ => 0 | None => 1 end.
Proof.
  unfold process_frame, frame_poses, frame_raise, frame_markers.
  destruct (detectMarkers fr) as [corners ids].
  destruct ids as [[ | i l] | ].
  - rewrite combine_nil. cbn. rewrite andb_true_r. destruct pd; auto.
  - pose proof (for_markers_spec pd (combine corners (i :: l)))
      as (H1 & H2 & H3 & H4).
    destruct (for_markers cm dc pd (combine corners (i :: l))) as [evs res].
    cbn [fst snd] in H1, H2, H3, H4. subst res.
    destruct (raised cm dc (combine corners (i :: l))) as [e | ];
      cbn [fst snd ret].
    + auto.
    + rewrite draws_app, printed_app, frames_shown_app, H4.
      cbn [draws printed flat_map]. rewrite !app_nil_r. auto.
  - cbn. rewrite andb_true_r. destruct pd; auto.
Qed.

Lemma handle_key_spec (pd : bool) (k : Z) :
  handle_key pd k =
    if ((Z.land k 255 =? 27) || (Z.land k 255 =? 113))%Z then None
    else Some ((Z.land k 255 =? 112)%Z || pd).
Proof.
  unfold handle_key. destruct (_ || _); [reflexivity | ].
  destruct (Z.land k 255 =? 112)%Z; reflexivity.
Qed.

Lemma requests_cons (t : Tick Image) (rest : list (Tick Image)) :
  requests (t :: rest) = (if is_request t then 1 else 0) + requests rest.
Proof.
  unfold requests. cbn [List.filter]. destruct (is_request t); reflexivity.
Qed.

(** One turn of the loop on a tick with a frame. *)
Lemma main_loop_cons (pd : bool) (t : Tick Image) (fr : Image)
  (rest : list (Tick Image)) :
  frame t = Some fr ->
  main_loop cm dc pd (t :: rest) =
    match snd (process_frame cm dc pd fr) with
    | inl stop => (fst (process_frame cm dc pd fr), inl stop)
    | inr pd' =>
        match handle_key pd' (key t) with
        | Some pd'' =>
            (fst (process_frame cm dc pd fr)
               ++ fst (main_loop cm dc pd'' rest),
             snd (main_loop cm dc pd'' rest))
        | None => (fst (process_frame cm dc pd fr), inr tt)
        end
    end.
Proof.
  intros Hfr. cbn [main_loop]. unfold frame_step. rewrite Hfr.
  destruct (process_frame cm dc pd fr) as [evs [stop | pd']];
    cbn [fst snd]; unfold ret.
  - reflexivity.
  - destruct (handle_key pd' (key t)) as [pd'' | ]; [ | reflexivity].
    destruct (main_loop cm dc pd'' rest) as [evs' r]. reflexivity.
Qed.

Lemma main_loop_no_frame (pd : bool) (t : Tick Image)
  (rest : list (Tick Image)) :
  frame t = None -> main_loop cm dc pd (t :: rest) = ([], inr tt).
Proof. intros Hfr. cbn [main_loop]. unfold frame_step. now rewrite Hfr. Qed.

(** How the loop ends: with the exception of the first frame on which the
    solver raises, or by a [break]. *)
Lemma main_loop_end (pd : bool) (ticks : list (Tick Image)) :
  snd (main_loop cm dc pd ticks) =
    match loop_raise cm dc ticks with
    | Some e => inl (Raise e)
    | None => inr tt
    end.
Proof.
  revert pd. induction ticks as [ | t rest IH]; intros pd; [reflexivity | ].
  cbn [loop_raise]. destruct (frame t) as [fr | ] eqn:Hfr.
  - rewrite (main_loop_cons pd t fr rest Hfr).
    destruct (process_frame_spec pd fr) as (H1 & _). rewrite H1.
    destruct (frame_raise cm dc fr) as [e | ]; [reflexivity | ].
    rewrite handle_key_spec. fold (is_quit (key t)).
    destruct (is_quit (key t)); [reflexivity | ]. cbn [snd]. apply IH.
  - now rewrite main_loop_no_frame.
Qed.

(** Over a run, there are no more detailed prints than requests. *)
Lemma main_loop_prints (pd : bool) (ticks : list (Tick Image)) :
  length (printed (fst (main_loop cm dc pd ticks)))
  <= (if pd then 1 else 0) + requests ticks.
Proof.
  revert pd. induction ticks as [ | t rest IH]; intros pd.
  - cbn. lia.
  - destruct (frame t) as [fr | ] eqn:Hfr;
      [ | rewrite main_loop_no_frame by exact Hfr; cbn; lia].
    rewrite (main_loop_cons pd t fr rest Hfr).
    pose proof (process_frame_spec pd fr) as (H1 & _ & H3 & _).
    destruct (process_frame cm dc pd fr) as [evs res]. cbn [fst snd] in *.
    assert (Hlen : length (printed evs) <= if pd then 1 else 0).
    { rewrite H3. destruct pd; cbn; [ | lia].
      destruct (frame_poses cm dc fr); cbn; rewrite ?take_0; cbn; lia. }
    subst res. destruct (frame_raise cm dc fr) as [e | ]; cbn [fst]; [lia | ].
    assert (Hevs : length (printed evs)
                   + (if pd && no_pose (frame_poses cm dc fr) then 1 else 0)
                   <= if pd then 1 else 0).
    { rewrite H3. destruct pd; cbn; [ | lia].
      destruct (frame_poses cm dc fr); cbn; rewrite ?take_0; cbn; lia. }
    rewrite handle_key_spec, requests_cons. unfold is_request.
    set (pd' := pd && no_pose (frame_poses cm dc fr)) in *.
    destruct (_ || _)%Z; cbn [fst].
    + lia.
    + rewrite printed_app, length_app.
      specialize (IH ((Z.land (key t) 255 =? 112)%Z || pd')).
      destruct (Z.land (key t) 255 =? 112)%Z; cbn [orb] in *;
        destruct pd, pd'; lia.
Qed.

(** A pending request waits through the quiet ticks and is consumed by the
    first pose of the first frame that has one. *)
Lemma pending_until_first_pose (qs : list (Tick Image)) (t : Tick Image)
  (rest : list (Tick Image)) (fr : Image) (p : Pose) (ps : list Pose) :
  forallb (quiet cm dc) qs = true ->
  frame t = Some fr ->
  frame_poses cm dc fr = p :: ps ->
  printed (fst (main_loop cm dc true (qs ++ t :: rest))) =
    p :: match frame_raise cm dc fr with
         | Some _ => []
         | None =>
             match handle_key false (key t) with
             | Some pd => printed (fst (main_loop cm dc pd rest))
             | None => []
             end
         end.
Proof.
  intros Hq Hfr Hp. induction qs as [ | q qs IH]; cbn [app].
  - rewrite (main_loop_cons true t fr rest Hfr).
    pose proof (process_frame_spec true fr) as (H1 & _ & H3 & _).
    rewrite Hp in H1, H3. rewrite H1.
    change (printed (fst (process_frame cm dc true fr)) = [p]) in H3.
    destruct (frame_raise cm dc fr) as [e | ]; cbn [fst]; [exact H3 | ].
    cbn [andb no_pose].
    destruct (handle_key false (key t)) as [pd | ]; cbn [fst].
    + rewrite printed_app, H3. reflexivity.
    + exact H3.
  - cbn [forallb] in Hq. apply andb_true_iff in Hq as [Hq Hqs].
    unfold quiet in Hq.
    destruct (frame q) as [fq | ] eqn:Hfq; [ | discriminate].
    rewrite (main_loop_cons true q fq _ Hfq).
    pose proof (process_frame_spec true fq) as (H1 & _ & H3 & _).
    destruct (frame_raise cm dc fq) as [e | ]; [discriminate | ].
    apply andb_true_iff in Hq as [Hnone Hk].
    destruct (frame_poses cm dc fq); [ | discriminate].
    change (printed (fst (process_frame cm dc true fq)) = []) in H3.
    rewrite H1. cbn [andb no_pose].
    rewrite handle_key_spec. unfold is_quit in Hk.
    destruct (_ || _)%Z; [discriminate | ].
    rewrite orb_true_r. cbn [fst]. rewrite printed_app, H3. cbn [app].
    now apply IH.
Qed.

(** C7.  The request to print is one-shot.  In a frame, with the poses of
    the frame in the order of the markers: a pending request prints the first
    pose and nothing else, no request prints nothing; afterwards, unless the
    solver raised and ended the run, the request is pending only if it was
    and no pose succeeded.  The key read at the end of the frame quits, or
    sets the request on [p], or leaves it.  Over a whole run there are no
    more detailed prints than requests, and a pending request waits through
    the ticks on which no pose succeeds and is consumed by the first pose of
    the first frame that has one. *)
Theorem print_detailed_one_shot (pd : bool) (fr : Image) (k : Z)
  (ticks : list (Tick Image)) :
  let poses := frame_poses cm dc fr in
  printed (fst (process_frame cm dc pd fr))
    = (if pd then firstn 1 poses else []) /\
  snd (process_frame cm dc pd fr) =
    match frame_raise cm dc fr with
    | Some e => inl (Raise e)
    | None => inr (pd && no_pose poses)
    end /\
  handle_key pd k =
    (if is_quit k then None else Some ((Z.land k 255 =? 112)%Z || pd)) /\
  length (printed (fst (main_loop cm dc pd ticks)))
    <= (if pd then 1 else 0) + requests ticks /\
  (forall qs t rest p ps,
     forallb (quiet cm dc) qs = true ->
     frame t = Some fr ->
     poses = p :: ps ->
     printed (fst (main_loop cm dc true (qs ++ t :: rest))) =
       p :: match frame_raise cm dc fr with
            | Some _ => []
            | None =>
                match handle_key false (key t) with
                | Some pd' => printed (fst (main_loop cm dc pd' rest))
                | None => []
                end
            end).
Proof.
  intros poses.
  destruct (process_frame_spec pd fr) as (H1 & _ & H3 & _).
  split; [exact H3 | ]. split; [exact H1 | ].
  split; [apply handle_key_spec | ].
  split; [apply main_loop_prints | ].
  intros qs t rest p ps Hq Hfr Hp.
  now apply (pending_until_first_pose qs t rest fr p ps).
Qed.

(** The poses of the markers: those of the markers up to the first on which
    the solver raises, for which it reports success. *)
Lemma solved_spec (ms : list (list Point2 * Z)) (p : Pose) :
  In p (solved cm dc ms) <->
  exists pre c id post rvec tvec,
    ms = pre ++ (c, id) :: post /\
    raised cm dc pre = None /\
    solvePnP marker_points c cm dc = inr (true, rvec, tvec) /\
    p = pose_of (snd (c, id)) rvec tvec.
Proof.
  unfold solved, raised. induction ms as [ | [c0 id0] rest IH];
    cbn [solve_all fst snd].
  - split; [intros [] | ].
    intros (pre & c & id & post & rvec & tvec & E & _).
    now destruct pre.
  - destruct (solvePnP marker_points c0 cm dc)
      as [e | [[success rvec0] tvec0]] eqn:Es.
    + split; [intros [] | ].
      intros (pre & c & id & post & rvec & tvec & E & Hr & Hs & _).
      destruct pre as [ | m pre]; cbn [app] in E; inversion E; subst.
      * congruence.
      * cbn [solve_all fst snd] in Hr. rewrite Es in Hr. discriminate.
    + destruct (solve_all cm dc rest) as [ps r] eqn:Er. cbn [fst snd] in *.
      rewrite in_app_iff, IH. split.
      * intros [Hin | (pre & c & id & post & rvec & tvec & E & Hr & Hs & Hp)].
        -- destruct success; [ | contradiction].
           destruct Hin as [<- | []].
           exists [], c0, id0, rest, rvec0, tvec0. auto.
        -- exists ((c0, id0) :: pre), c, id, post, rvec, tvec.
           split; [now rewrite E | ]. split; [ | auto].
           cbn [solve_all fst snd]. rewrite Es.
           destruct (solve_all cm dc pre) as [ps' r']. exact Hr.
      * intros (pre & c & id & post & rvec & tvec & E & Hr & Hs & Hp).
        destruct pre as [ | m pre]; cbn [app] in E; inversion E; subst.
        -- rewrite Es in Hs. inversion Hs; subst. left. now left.
        -- right. exists pre, c, id, post, rvec, tvec.
           split; [reflexivity | ]. split; [ | auto].
           cbn [solve_all fst snd] in Hr. rewrite Es in Hr.
           destruct (solve_all cm dc pre) as [ps' r']. exact Hr.
Qed.

(** X19.  A pose is drawn for a marker exactly when the loop reaches the
    marker, no call of the solver having raised before, and the solver
    reports success for it; the pose is the one solution the solver returns,
    translation and rotation unchanged, whatever the sign of [z]. *)
Theorem solver_result_used_as_is (pd : bool) (ms : list (list Point2 * Z))
  (p : Pose) :
  In p (draws (fst (for_markers cm dc pd ms))) <->
  exists pre c id post rvec tvec,
    ms = pre ++ (c, id) :: post /\
    raised cm dc pre = None /\
    solvePnP marker_points c cm dc = inr (true, rvec, tvec) /\
    p = {| marker := id; pos := tvec;
           euler := rotation_vector_to_euler rvec;
           distance := linalg_norm tvec; rotvec := rvec |}.
Proof.
  destruct (for_markers_spec pd ms) as (_ & -> & _). apply solved_spec.
Qed.

End Loop.

(** A run of four frames: [p] is pressed on the first, no marker is seen on
    the second, two markers on the third, one on the fourth.  The pose of
    marker 3, the first of the third frame, is printed, and no other. *)
Example print_detailed_once :
  printed (fst (main_loop (lib := lib_example solver_front)
                  camera_matrix_example dist_coeff_example false
             [ {| frame := Some [(square, 1%Z)]; key := 112 |};
               {| frame := Some []; key := (-1) |};
               {| frame := Some [(square, 3%Z); (square, 4%Z)]; key := (-1) |};
               {| frame := Some [(square, 5%Z)]; key := 113 |} ]))
  = [ pose_of (lib := lib_example solver_front) 3%Z
        (Fin 0, Fin 0, Fin 0) (Fin 0, Fin 0, Fin 1) ].
Proof. reflexivity. Qed.

(** A pending request waits through a frame without marker and prints the
    pose of marker 3, the first of the next frame. *)
Lemma print_detailed_one_shot_run :
  printed (fst (main_loop (lib := lib_example solver_front)
                  camera_matrix_example dist_coeff_example true
             [ {| frame := Some []; key := (-1) |};
               {| frame := Some [(square, 3%Z); (square, 4%Z)];
                  key := (-1) |} ]))
  = [ pose_of (lib := lib_example solver_front) 3%Z
        (Fin 0, Fin 0, Fin 0) (Fin 0, Fin 0, Fin 1) ].
Proof.
  destruct (print_detailed_one_shot (lib := lib_example solver_front)
              camera_matrix_example dist_coeff_example true
              [(square, 3%Z); (square, 4%Z)] (-1) [])
    as (_ & _ & _ & _ & H).
  apply (H [ {| frame := Some []; key := (-1) |} ]
           {| frame := Some [(square, 3%Z); (square, 4%Z)]; key := (-1) |}
           []
           (pose_of (lib := lib_example solver_front) 3%Z
              (Fin 0, Fin 0, Fin 0) (Fin 0, Fin 0, Fin 1))
           [ pose_of (lib := lib_example solver_front) 4%Z
               (Fin 0, Fin 0, Fin 0) (Fin 0, Fin 0, Fin 1) ]);
    reflexivity.
Defined.

(** The second of three markers: its solution, one metre in front of the
    camera, is drawn. *)
Lemma solver_result_used_as_is_front :
  In {| marker := 7; pos := (Fin 0, Fin 0, Fin 1);
        euler := rotation_vector_to_euler (lib := lib_example solver_front)
                   (Fin 0, Fin 0, Fin 0);
        distance := @linalg_norm _ _ (lib_example solver_front)
                      (Fin 0, Fin 0, Fin 1);
        rotvec := (Fin 0, Fin 0, Fin 0) |}
     (draws (fst (for_markers (lib := lib_example solver_front)
                    camera_matrix_example dist_coeff_example false
                    [(square, 6%Z); (square, 7%Z); (square, 8%Z)]))).
Proof.
  apply (solver_result_used_as_is (lib := lib_example solver_front)).
  exists [(square, 6%Z)], square, 7%Z, [(square, 8%Z)],
    (Fin 0, Fin 0, Fin 0), (Fin 0, Fin 0, Fin 1).
  repeat split.
Defined.

(** ** aruco_pose.py: startup *)

Section Startup.
Context {Image ndarray : Type} `{lib : Lib Image ndarray}.

(** When loading stops, the script stops with it: the status is 1 and no
    frame has been shown. *)
Lemma main_stops (file : option FileContent) (cam : bool)
  (ticks : list (Tick Image)) (s : Stop) :
  snd (load_calibration file) = inl s ->
  main file cam ticks = (fst (load_calibration file), s) /\
  exit_status s = 1%Z /\
  frames_shown (fst (main file cam ticks)) = 0.
Proof.
  intros H. unfold main.
  destruct (load_calibration file) as [evs [s' | [a1 a2]]] eqn:E;
    cbn in H; [ | discriminate]. injection H as ->.
  split; [reflexivity | ].
  destruct file as [[ | doc] | ]; cbn in E.
  - injection E as <- <-. split; reflexivity.
  - injection E as <- E. split; [ | reflexivity].
    unfold getitem, call in E.
    destruct doc; try (injection E as <-; reflexivity).
    destruct (dict_get m "camera_matrix") as [v1 | ];
      [ | injection E as <-; reflexivity].
    cbn in E. destruct (np_array v1); [injection E as <-; reflexivity | ].
    cbn in E. destruct (dict_get m "dist_coeff") as [v2 | ];
      [ | injection E as <-; reflexivity].
    cbn in E. destruct (np_array v2);
      [injection E as <-; reflexivity | discriminate].
  - injection E as <- <-. split; reflexivity.
Qed.

(** With the calibration loaded and the webcam opened, the run is that of
    the loop: it ends with "Done!" and status 0, or with the exception the
    solver raises in a frame. *)
Lemma main_run (file : option FileContent) (ticks : list (Tick Image))
  (a1 a2 : ndarray) :
  load_calibration file = ([], inr (a1, a2)) ->
  main file true ticks =
    match loop_raise a1 a2 ticks with
    | None =>
        (LoadedCalibration :: fst (main_loop a1 a2 false ticks) ++ [Done],
         SysExit 0)
    | Some e =>
        (LoadedCalibration :: fst (main_loop a1 a2 false ticks), Raise e)
    end.
Proof.
  intros E. unfold main. rewrite E. cbn [negb app].
  pose proof (main_loop_end a1 a2 false ticks) as H.
  destruct (main_loop a1 a2 false ticks) as [evs r]. cbn [fst snd] in *.
  subst r. destruct (loop_raise a1 a2 ticks); reflexivity.
Qed.

(** C8, as the code has it.  A missing calibration file ends the script
    with the diagnostic and status 1; a file that cannot be parsed, or whose
    document is not a dict with both [camera_matrix] and [dist_coeff], ends
    it with an uncaught exception; whenever loading stops, the status is 1
    and no frame has been shown.  The values of the two fields are not
    examined: if numpy makes arrays of them, whatever they are, the
    calibration is loaded and the frame loop runs, to end with "Done!" and
    status 0 unless the solver raises on them in a frame, which ends the
    run there with that exception. *)
Theorem startup_failures (file : option FileContent) (cam : bool)
  (ticks : list (Tick Image)) :
  (file = None ->
     main file cam ticks = ([ErrCalibrationNotFound], SysExit 1)) /\
  (file = Some Unparsable -> main file cam ticks = ([], Raise YAMLError)) /\
  (forall doc, file = Some (Parses doc) -> has_fields doc = false ->
     exists e, main file cam ticks = ([], Raise e)) /\
  (forall s, snd (load_calibration file) = inl s ->
     snd (main file cam ticks) = s /\ exit_status s = 1%Z /\
     frames_shown (fst (main file cam ticks)) = 0) /\
  (forall m v1 v2 a1 a2, file = Some (Parses (YMap m)) ->
     dict_get m "camera_matrix" = Some v1 ->
     dict_get m "dist_coeff" = Some v2 ->
     np_array v1 = inr a1 -> np_array v2 = inr a2 ->
     main file true ticks =
       match loop_raise a1 a2 ticks with
       | None =>
           (LoadedCalibration :: fst (main_loop a1 a2 false ticks) ++ [Done],
            SysExit 0)
       | Some e =>
           (LoadedCalibration :: fst (main_loop a1 a2 false ticks), Raise e)
       end).
Proof.
  split; [ | split; [ | split; [ | split]]].
  - intros ->. reflexivity.
  - intros ->. reflexivity.
  - intros doc -> Hf. unfold main, load_calibration, getitem.
    destruct doc; try (eexists; reflexivity). cbn in Hf.
    destruct (dict_get m "camera_matrix") as [v1 | ];
      [ | eexists; reflexivity].
    cbn. destruct (np_array v1); [eexists; reflexivity | ].
    cbn. destruct (dict_get m "dist_coeff");
      [discriminate | eexists; reflexivity].
  - intros s H. destruct (main_stops file cam ticks s H) as (-> & ? & ?).
    auto.
  - intros m v1 v2 a1 a2 -> H1 H2 H3 H4. apply main_run.
    unfold load_calibration, getitem.
    rewrite H1. cbn. rewrite H3. cbn. rewrite H2. cbn. rewrite H4.
    reflexivity.
Qed.

End Startup.

(** Without the file; with a file that has one field only; and with the two
    fields malformed and a marker in view, where the exception of the solver
    ends the run in the first frame, which is not shown. *)
Lemma startup_failures_examples :
  main (lib := lib_example solver_front) None true
    [ {| frame := Some [(square, 7%Z)]; key := 113 |} ]
  = ([ErrCalibrationNotFound], SysExit 1) /\
  (exists e,
    main (lib := lib_example solver_front)
      (Some (Parses (YMap [("camera_matrix", YSeq [])]))) true
      [ {| frame := Some [(square, 7%Z)]; key := 113 |} ]
    = ([], Raise e)) /\
  main (lib := lib_example solver_front) (Some malformed_calibration) true
    [ {| frame := Some [(square, 7%Z)]; key := 113 |} ]
  = ([LoadedCalibration], Raise Cv2Error).
Proof.
  split; [ | split].
  - apply (startup_failures (lib := lib_example solver_front)). reflexivity.
  - eapply (startup_failures (lib := lib_example solver_front));
      reflexivity.
  - destruct (startup_failures (lib := lib_example solver_front)
                (Some malformed_calibration) true
                [ {| frame := Some [(square, 7%Z)]; key := 113 |} ])
      as (_ & _ & _ & _ & H).
    apply (H [("camera_matrix", YStr "abc"); ("dist_coeff", YStr "xyz")]
             (YStr "abc") (YStr "xyz") (YStr "abc") (YStr "xyz"));
      reflexivity.
Defined.

(** C8, as stated, fails: with both fields present and malformed (two
    strings, not arrays of numbers) the script loads them, shows two frames
    in which no marker is seen and ends with status 0. *)
Lemma malformed_fields_not_fatal :
  let run :=
    main (lib := lib_example solver_fails) (Some malformed_calibration) true
      [ {| frame := Some []; key := (-1) |};
        {| frame := Some []; key := 113 |} ] in
  is_float_array 3 3 (YStr "abc") = false /\
  is_float_array 1 5 (YStr "xyz") = false /\
  run = ([LoadedCalibration; NoMarker; Show; NoMarker; Show; Done],
         SysExit 0) /\
  frames_shown (fst run) = 2 /\
  exit_status (snd run) = 0%Z.
Proof. cbv zeta. repeat split. Qed.

End ArucoPoseTheory.

(** ** calibrate.py *)

Module CalibrateTheory.
Import Float Py Calibrate FloatFacts.

(** *** Corner refinement *)

Section Refine.
Variable step : Point2 -> Point2.
Variable epsilon : R.

(** The loop runs [k] iterations: at most [n], at least one when [n] is not
    zero; no change before the last one is below [epsilon], and the last one
    is when the loop stops short of [n]. *)
Lemma refine_corner_spec (n : nat) (p : Point2) :
  let '(q, k) := refine_corner step epsilon n p in
  k <= n /\ (0 < n -> 0 < k) /\ q = iterate step k p /\
  (forall i, S i < k -> below step epsilon i p = false) /\
  (k < n -> below step epsilon (k - 1) p = true).
Proof.
  revert p. induction n as [ | n IH]; intros p; cbn [refine_corner].
  - repeat split; try lia.
  - destruct (flt (displacement p (step p)) (Fin epsilon)) eqn:E.
    + repeat split; try lia. intros _. exact E.
    + specialize (IH (step p)).
      destruct (refine_corner step epsilon n (step p)) as [r k].
      destruct IH as (H1 & H2 & H3 & H4 & H5).
      repeat split; try lia.
      * exact H3.
      * intros [ | i] Hi; [exact E | ]. apply (H4 i). lia.
      * intros Hk. destruct k as [ | k]; [lia | ].
        specialize (H5 ltac:(lia)). cbn [Nat.sub] in *.
        rewrite Nat.sub_0_r in *. exact H5.
Qed.

End Refine.

Section Run.
Context {Image : Type} `{lib : Lib Image}.

(** C6.  The script refines every corner of the pattern with the criteria
    (30 iterations, 0.001 pixel).  For a corner [p] the refinement runs [k]
    iterations with [1 <= k <= 30] and returns the [k]-th estimate; no change
    before the last is below 0.001, and if it stops before 30 the last change
    is below 0.001: it ends on the first of the two conditions.  The
    iterations spent on an image are at most 30 for each of its corners. *)
Theorem corner_refinement_bounded (g : Image) (corners : list Point2)
  (p : Point2) :
  let step := subpix_step g (11, 11) (-1, -1)%Z in
  cornerSubPix g corners (11, 11) (-1, -1)%Z criteria
    = map (fun c => fst (refine_corner step 0.001 30 c)) corners /\
  (let '(q, k) := refine_corner step 0.001 30 p in
   1 <= k <= 30 /\ q = iterate step k p /\
   (forall i, S i < k -> below step 0.001 i p = false) /\
   (k < 30 -> below step 0.001 (k - 1) p = true)) /\
  list_sum (map (fun c => snd (refine_corner step 0.001 30 c)) corners)
    <= 30 * length corners.
Proof.
  intros step. split; [reflexivity | ]. split.
  - pose proof (refine_corner_spec step 0.001 30 p) as H.
    destruct (refine_corner step 0.001 30 p) as [q k].
    destruct H as (H1 & H2 & H3 & H4 & H5).
    repeat split; auto. apply H2. lia.
  - unfold list_sum.
    induction corners as [ | c cs IH]; cbn [map fold_right length]; [lia | ].
    pose proof (refine_corner_spec step 0.001 30 c) as H.
    destruct (refine_corner step 0.001 30 c) as [q k].
    destruct H as (H1 & _). cbn [snd]. lia.
Qed.

(** *** The loop over the images *)

Lemma process_image_inv (a : Acc Image) (n : nat) (fname : string) :
  successful a = n /\ (0 < n -> exists g, gray a = Some g) /\
  Forall loop_msg (out a) ->
  let a' := process_image a fname in
  let n' := n + (if is_sample fname then 1 else 0) in
  successful a' = n' /\ (0 < n' -> exists g, gray a' = Some g) /\
  Forall loop_msg (out a').
Proof.
  intros (H1 & H2 & H3). unfold process_image, is_sample.
  destruct (imread fname) as [img | ].
  - destruct (findChessboardCorners (cvtColor img) CHESSBOARD_SIZE)
      as [found corners].
    cbn [fst]. destruct found; cbn; repeat split; try lia; eauto;
      apply Forall_app; split; try assumption; repeat constructor.
  - cbn. repeat split; try lia.
    + intros Hn. apply H2. lia.
    + apply Forall_app; split; [assumption | repeat constructor].
Qed.

Lemma fold_inv (images : list string) (a : Acc Image) (n : nat) :
  successful a = n /\ (0 < n -> exists g, gray a = Some g) /\
  Forall loop_msg (out a) ->
  let a' := fold_left process_image images a in
  let n' := n + successCount images in
  successful a' = n' /\ (0 < n' -> exists g, gray a' = Some g) /\
  Forall loop_msg (out a').
Proof.
  revert a n. induction images as [ | f rest IH]; intros a n Ha;
    cbn [fold_left].
  - unfold successCount. cbn. now rewrite Nat.add_0_r.
  - replace (n + successCount (f :: rest))
      with ((n + if is_sample f then 1 else 0) + successCount rest).
    + apply IH. now apply process_image_inv.
    + unfold successCount. cbn [List.filter].
      destruct (is_sample f); cbn; lia.
Qed.

(** The counter of the loop is the number of samples; once it is positive,
    [gray] holds an image; the loop prints its own three messages only. *)
Lemma process_images_inv (images : list string) :
  let a := process_images images in
  successful a = successCount images /\
  (0 < successCount images -> exists g, gray a = Some g) /\
  Forall loop_msg (out a).
Proof.
  apply (fold_inv images acc0 0). cbn. repeat split; [lia | constructor].
Qed.

(** Below three samples the run stops at the check. *)
Lemma main_not_enough (images : list string) :
  let a := process_images images in
  let n := successCount images in
  images <> [] -> n < 3 ->
  main (Some images) =
    {| messages := out a ++ [Results n (failed a); ErrNotEnough n];
       stop := SysExit 1; written := None |}.
Proof.
  intros a n Hne Hn. destruct (process_images_inv images) as (H1 & _).
  fold a in H1. fold n in H1.
  unfold main. destruct images as [ | f rest]; [congruence | ].
  cbn [length Nat.eqb]. fold a. rewrite H1.
  destruct (Nat.ltb_spec n 3) as [_ | ?]; [ | lia].
  now rewrite <- app_assoc.
Qed.

(** From three samples on the solver is called, and decides. *)
Lemma main_enough (images : list string) :
  let a := process_images images in
  let n := successCount images in
  3 <= n ->
  exists g, gray a = Some g /\
    main (Some images) =
      match calibrateCamera (objpoints a) (imgpoints a) (shape_rev g) with
      | None =>
          {| messages :=
               out a ++ [Results n (failed a); ErrCalibrationFailed];
             stop := SysExit 1; written := None |}
      | Some c =>
          {| messages :=
               out a ++ [Results n (failed a); quality (rms c); Saved];
             stop := SysExit 0;
             written := Some {| camera_matrix := mtx c; dist_coeff := dist c;
                                reprojection_error := rms c |} |}
      end.
Proof.
  intros a n Hn. destruct (process_images_inv images) as (H1 & H2 & _).
  fold a in H1, H2. fold n in H1, H2.
  destruct (H2 ltac:(lia)) as (g & Hg). exists g. split; [exact Hg | ].
  unfold main. destruct images as [ | f rest].
  { unfold n, successCount in Hn. cbn in Hn. lia. }
  cbn [length Nat.eqb]. fold a. rewrite H1.
  destruct (Nat.ltb_spec n 3) as [? | _]; [lia | ].
  rewrite Hg. destruct (calibrateCamera _ _ _); now rewrite <- app_assoc.
Qed.

Lemma existsb_loop_msg (l : list Msg) :
  Forall loop_msg l -> existsb lacks_samples l = false.
Proof.
  induction 1 as [ | m l Hm _ IH]; [reflexivity | ].
  cbn. rewrite IH. destruct m; try contradiction; reflexivity.
Qed.

(** The run is refused for lack of samples exactly below three samples. *)
Lemma insufficient_iff (images : list string) :
  insufficient (main (Some images)) = (successCount images <? 3)%nat.
Proof.
  destruct (process_images_inv images) as (H1 & H2 & H5).
  set (a := process_images images) in *.
  set (n := successCount images) in *.
  pose proof (existsb_loop_msg _ H5) as Hout.
  unfold insufficient, main. destruct images as [ | f rest]; [reflexivity | ].
  cbn [length Nat.eqb]. fold a. rewrite H1.
  destruct (Nat.ltb_spec n 3) as [Hlt | Hge].
  - cbn [messages]. rewrite !existsb_app, Hout. reflexivity.
  - destruct (H2 ltac:(lia)) as (g & ->).
    destruct (calibrateCamera _ _ _); cbn [messages];
      rewrite !existsb_app, Hout; cbn; rewrite ?orb_false_r;
      unfold quality; repeat destruct (flt _ _); reflexivity.
Qed.

(** C3.  With the images of the directory, [n] of them samples, the run is
    refused for lack of samples exactly when [n < 3], and then it stops with
    status 1 and writes nothing; when there are images and [n < 3], so with
    2 samples, the diagnostic is that of the check on [successful]; when
    [n >= 3], so with exactly 3, the solver is called, and when it returns
    the calibration is written and the status is 0. *)
Theorem insufficient_samples (images : list string) :
  let a := process_images images in
  let n := successCount images in
  (insufficient (main (Some images)) = true <-> n < 3) /\
  (n < 3 ->
     stop (main (Some images)) = SysExit 1 /\
     written (main (Some images)) = None) /\
  (images <> [] -> n < 3 ->
     main (Some images) =
       {| messages := out a ++ [Results n (failed a); ErrNotEnough n];
          stop := SysExit 1; written := None |}) /\
  (3 <= n ->
     exists g, gray a = Some g /\
       main (Some images) =
         match calibrateCamera (objpoints a) (imgpoints a) (shape_rev g) with
         | None =>
             {| messages :=
                  out a ++ [Results n (failed a); ErrCalibrationFailed];
                stop := SysExit 1; written := None |}
         | Some c =>
             {| messages :=
                  out a ++ [Results n (failed a); quality (rms c); Saved];
                stop := SysExit 0;
                written :=
                  Some {| camera_matrix := mtx c; dist_coeff := dist c;
                          reprojection_error := rms c |} |}
         end).
Proof.
  intros a n. split; [ | split; [ | split]].
  - rewrite insufficient_iff. fold n. apply Nat.ltb_lt.
  - intros Hn. destruct images as [ | f rest]; [split; reflexivity | ].
    rewrite main_not_enough by (discriminate || exact Hn).
    split; reflexivity.
  - apply main_not_enough.
  - apply main_enough.
Qed.

(** C5.  The quality printed for the RMS error [e] is excellent below 0.5,
    good from 0.5 and below 1.0, acceptable from 1.0 and below 2.0, poor from
    2.0 on.  It is only printed: whatever the error the solver returns, the
    run ends with status 0 and writes the calibration, the error in it. *)
Theorem quality_is_advisory (e : float) (images : list string) :
  (flt e (Fin 0.5) = true -> quality e = Excellent) /\
  (fle (Fin 0.5) e = true -> flt e (Fin 1.0) = true -> quality e = Good) /\
  (fle (Fin 1.0) e = true -> flt e (Fin 2.0) = true ->
     quality e = Acceptable) /\
  (fle (Fin 2.0) e = true -> quality e = Poor) /\
  (forall g c,
     3 <= successCount images ->
     gray (process_images images) = Some g ->
     calibrateCamera (objpoints (process_images images))
       (imgpoints (process_images images)) (shape_rev g) = Some c ->
     In (quality (rms c)) (messages (main (Some images))) /\
     stop (main (Some images)) = SysExit 0 /\
     written (main (Some images)) =
       Some {| camera_matrix := mtx c; dist_coeff := dist c;
               reprojection_error := rms c |}).
Proof.
  unfold quality. split; [ | split; [ | split; [ | split]]].
  - intros ->. reflexivity.
  - intros H1 H2. now rewrite (fle_not_flt _ _ H1), H2.
  - intros H1 H2.
    assert (H0 : flt e (Fin 0.5) = false).
    { destruct e as [ | | | x]; try reflexivity; try discriminate.
      unfold fle, flt in *.
      destruct (Rle_dec 1.0 x); [ | discriminate].
      apply Rlt_dec_false. lra. }
    now rewrite H0, (fle_not_flt _ _ H1), H2.
  - intros H.
    assert (H0 : flt e (Fin 0.5) = false /\ flt e (Fin 1.0) = false).
    { destruct e as [ | | | x]; try (split; reflexivity); try discriminate.
      unfold fle, flt in *.
      destruct (Rle_dec 2.0 x); [ | discriminate].
      split; apply Rlt_dec_false; lra. }
    destruct H0 as [-> ->]. now rewrite (fle_not_flt _ _ H).
  - intros g c Hn Hgray Hc.
    destruct (main_enough images Hn) as (g' & Hg & ->).
    rewrite Hgray in Hg. injection Hg as <-. rewrite Hc.
    cbn [messages stop written]. repeat split.
    rewrite in_app_iff. right. cbn. auto.
Qed.

End Run.

(** *** Examples *)

Section Examples.
Local Open Scope R_scope.

(** A refinement that does not move the corner stops after one iteration. *)
Lemma refine_still (x y : R) :
  refine_corner step_still 0.001 30 (Fin x, Fin y) = ((Fin x, Fin y), 1%nat).
Proof.
  cbn [refine_corner].
  assert (E : displacement (Fin x, Fin y) (step_still (Fin x, Fin y)) = Fin 0).
  { unfold step_still, displacement. cbn [fneg fadd fpow2 fmul fsqrt].
    rewrite Rlt_dec_false by nra. f_equal.
    replace ((x + - x) * (x + - x) + (y + - y) * (y + - y)) with 0 by ring.
    apply sqrt_0. }
  rewrite E. unfold flt. now rewrite Rlt_dec_true by lra.
Qed.

Lemma corner_refinement_bounded_still :
  below step_still 0.001 0 (Fin 0, Fin 0) = true.
Proof.
  pose proof (corner_refinement_bounded
                (lib := lib_example step_still (solve_with 0.3))
                "board1.jpg" [] (Fin 0, Fin 0)) as (_ & H & _).
  cbn [subpix_step lib_example] in H. rewrite refine_still in H.
  destruct H as (_ & _ & _ & H). apply H. lia.
Defined.

(** Two samples among four images, and three samples. *)
Lemma insufficient_samples_2_and_3 :
  let two := ["board1.jpg"; "blurry.jpg"; "board2.jpg"; "unreadable.jpg"]%string in
  let three := ["board1.jpg"; "board2.jpg"; "board3.jpg"]%string in
  let run := main (lib := lib_example step_still (solve_with 0.3)) in
  stop (run (Some two)) = SysExit 1 /\ written (run (Some two)) = None /\
  stop (run (Some three)) = SysExit 0 /\
  exists d, written (run (Some three)) = Some d.
Proof.
  intros two three run.
  destruct (insufficient_samples
              (lib := lib_example step_still (solve_with 0.3)) two)
    as (_ & H2 & _).
  destruct (insufficient_samples
              (lib := lib_example step_still (solve_with 0.3)) three)
    as (_ & _ & _ & H3).
  unfold run. destruct H2 as [-> ->]; [vm_compute; lia | ].
  destruct H3 as (g & _ & ->); [vm_compute; lia | ].
  cbn [calibrateCamera lib_example solve_with stop written].
  repeat split. eexists. reflexivity.
Defined.

(** An error of 3.2 pixels is poor, and the calibration is written. *)
Lemma quality_is_advisory_poor :
  let three := ["board1.jpg"; "board2.jpg"; "board3.jpg"]%string in
  let run := main (lib := lib_example step_still (solve_with 3.2)) in
  quality (Fin 3.2) = Poor /\
  stop (run (Some three)) = SysExit 0 /\
  exists d, written (run (Some three)) = Some d /\
            reprojection_error d = Fin 3.2.
Proof.
  intros three run.
  destruct (quality_is_advisory
              (lib := lib_example step_still (solve_with 3.2))
              (Fin 3.2) three) as (_ & _ & _ & Hq & Hrun).
  split.
  - apply Hq. unfold fle. apply Rle_dec_true. lra.
  - destruct (Hrun "board3.jpg" (calibration_with 3.2)) as (_ & Hs & Hw).
    + vm_compute. lia.
    + reflexivity.
    + reflexivity.
    + unfold run. rewrite Hs, Hw. split; [reflexivity | ].
      eexists. split; reflexivity.
Defined.

End Examples.

End CalibrateTheory.

(** ** capture.py *)

Module CaptureTheory.
Import Float Capture.

Section Run.
Context {Pixels : Type} `{lib : Lib Pixels}.

(** A new array is not one of the arrays there are. *)
Lemma fresh_ne (h : gmap positive Pixels) (l : positive) :
  is_Some (h !! l) -> fresh (dom h) <> l.
Proof.
  intros Hl E. apply (is_fresh (dom h)). rewrite E. now apply elem_of_dom.
Qed.

(** Running the commands, one at a time. *)
Lemma run_alloc {A} (px : Pixels) (k : positive -> Cmd A) (st : State) :
  cbind (alloc px) k st =
    k (fresh (dom (heap st)))
      (set_heap (<[fresh (dom (heap st)) := px]> (heap st)) st).
Proof. reflexivity. Qed.

Lemma run_load {A} (l : positive) (px : Pixels) (k : Pixels -> Cmd A)
  (st : State) :
  heap st !! l = Some px -> cbind (load l) k st = k px st.
Proof. intros H. unfold cbind, load. now rewrite H. Qed.

Lemma run_copy {A} (l : positive) (px : Pixels) (k : positive -> Cmd A)
  (st : State) :
  heap st !! l = Some px ->
  cbind (copy l) k st =
    k (fresh (dom (heap st)))
      (set_heap (<[fresh (dom (heap st)) := px]> (heap st)) st).
Proof. intros H. unfold copy, cbind, load, alloc. now rewrite H. Qed.

Lemma modify_eq (l : positive) (f : Pixels -> Pixels) (px : Pixels)
  (st : State) :
  heap st !! l = Some px ->
  modify l f st = Some (tt, set_heap (<[l := f px]> (heap st)) st).
Proof. intros H. unfold modify. now rewrite H. Qed.

Lemma run_modify {A} (l : positive) (f : Pixels -> Pixels) (px : Pixels)
  (k : unit -> Cmd A) (st : State) :
  heap st !! l = Some px ->
  cbind (modify l f) k st = k tt (set_heap (<[l := f px]> (heap st)) st).
Proof. intros H. unfold cbind. now rewrite (modify_eq l f px). Qed.

Lemma run_imshow {A} (l : positive) (px : Pixels) (k : unit -> Cmd A)
  (st : State) :
  heap st !! l = Some px ->
  cbind (imshow l) k st =
    k tt {| heap := heap st; count := count st; disk := disk st;
            screen := screen st ++ [px]; out := out st |}.
Proof. intros H. unfold imshow, cbind, load. now rewrite H. Qed.

Lemma run_imwrite {A} (fn : string) (l : positive) (px : Pixels)
  (k : unit -> Cmd A) (st : State) :
  heap st !! l = Some px ->
  cbind (imwrite fn l) k st =
    k tt {| heap := heap st; count := count st;
            disk := <[fn := px]> (disk st);
            screen := screen st; out := out st |}.
Proof. intros H. unfold imwrite, cbind, load. now rewrite H. Qed.

(** One iteration on a frame [px] of the camera: it ends, what it shows is
    the display copy, and what it writes, on SPACE with the pattern found,
    is [px]. *)
Lemma iteration_frame (t : Tick Pixels) (px : Pixels) (st : State) :
  frame t = Some px ->
  exists b st',
    iteration t st = Some (b, st') /\
    screen st' = screen st ++ [display_of px] /\
    disk st' =
      (if (key t =? 32)%Z
          && fst (findChessboardCorners (cvtColor px) CHESSBOARD_SIZE)
       then <[filename_of (count st) := px]> (disk st) else disk st).
Proof.
  intros Hfr. unfold iteration. rewrite Hfr.
  rewrite run_alloc.
  set (l1 := fresh (dom (heap st))).
  set (st1 := set_heap _ st).
  assert (E1 : heap st1 !! l1 = Some px) by apply lookup_insert_eq.
  rewrite (run_copy l1 px) by exact E1.
  set (l2 := fresh (dom (heap st1))).
  assert (N21 : l2 <> l1) by (apply fresh_ne; rewrite E1; eauto).
  set (st2 := set_heap _ st1).
  assert (E21 : heap st2 !! l1 = Some px).
  { cbn. rewrite lookup_insert_ne by exact N21. exact E1. }
  assert (E22 : heap st2 !! l2 = Some px) by apply lookup_insert_eq.
  rewrite (run_load l1 px) by exact E21.
  rewrite run_alloc.
  set (l3 := fresh (dom (heap st2))).
  assert (N31 : l3 <> l1) by (apply fresh_ne; rewrite E21; eauto).
  assert (N32 : l3 <> l2) by (apply fresh_ne; rewrite E22; eauto).
  set (st3 := set_heap _ st2).
  assert (E31 : heap st3 !! l1 = Some px).
  { cbn. rewrite lookup_insert_ne by exact N31. exact E21. }
  assert (E32 : heap st3 !! l2 = Some px).
  { cbn. rewrite lookup_insert_ne by exact N32. exact E22. }
  rewrite (run_load l3 (cvtColor px)) by apply lookup_insert_eq.
  unfold display_of, filename_of.
  destruct (findChessboardCorners (cvtColor px) CHESSBOARD_SIZE)
    as [found corners].
  cbn [fst].
  assert (C : count st3 = count st /\ disk st3 = disk st
              /\ screen st3 = screen st) by (repeat split).
  destruct C as (Ec & Ed & Es).
  clearbody l2 l3 st3. clear st1 st2 E1 E21 E22.
  destruct found.
  - unfold cbind at 1. rewrite (run_modify l2 _ px) by exact E32.
    set (st4 := set_heap _ st3).
    cbv beta.
    rewrite (modify_eq l2 _
               (drawChessboardCorners px CHESSBOARD_SIZE corners true))
      by apply lookup_insert_eq.
    set (st5 := set_heap _ st4).
    assert (E51 : heap st5 !! l1 = Some px).
    { cbn. rewrite !lookup_insert_ne by exact N21. exact E31. }
    rewrite (run_imshow l2
               (putText (drawChessboardCorners px CHESSBOARD_SIZE corners true)
                  "Press SPACE to save" (10, 30)%Z))
      by apply lookup_insert_eq.
    rewrite andb_true_r.
    destruct (key t =? 32)%Z.
    + unfold cbind at 1. unfold get_count at 1.
      rewrite (run_imwrite _ l1 px) by exact E51.
      unfold cbind, print, set_count. clear E51. subst st5 st4.
      cbn [heap count disk screen out set_heap]. rewrite Ec, Ed, Es.
      destruct (NUM_IMAGES <=? count st + 1)%nat; cbn; eauto.
    + destruct (key t =? 27)%Z; cbn; rewrite ?Ed, ?Es; eauto.
  - unfold cbind at 1. unfold cret at 1.
    rewrite (run_imshow l2 px) by exact E32.
    rewrite andb_false_r.
    destruct (key t =? 27)%Z; cbn; rewrite ?Ed, ?Es; eauto.
Qed.

(** The loop ends, and a file on the disk was there before or is the frame
    of a tick that captures it. *)
Lemma main_loop_disk (ticks : list (Tick Pixels)) (st : State) :
  exists st',
    main_loop ticks st = Some (tt, st') /\
    forall fn px, disk st' !! fn = Some px ->
      disk st !! fn = Some px \/ exists t, In t ticks /\ captures t px.
Proof.
  revert st. induction ticks as [ | t rest IH]; intros st; cbn [main_loop].
  - exists st. split; [reflexivity | auto].
  - destruct (frame t) as [px | ] eqn:Hfr.
    + destruct (iteration_frame t px st Hfr) as (b & st1 & Hit & _ & Hdisk).
      unfold cbind. rewrite Hit.
      assert (Hst1 : forall fn q, disk st1 !! fn = Some q ->
                disk st !! fn = Some q \/ captures t q).
      { intros fn q. rewrite Hdisk.
        destruct (key t =? 32)%Z eqn:Hk; cbn [andb]; [ | auto].
        destruct (fst (findChessboardCorners (cvtColor px) CHESSBOARD_SIZE))
          eqn:Hf; [ | auto].
        rewrite lookup_insert. case_decide; [ | auto].
        intros [= <-]. right. unfold captures.
        apply Z.eqb_eq in Hk. auto. }
      destruct b.
      * destruct (IH st1) as (st' & Hrun & Hd). exists st'.
        split; [exact Hrun | ].
        intros fn q Hq. destruct (Hd fn q Hq) as [Hq1 | (t' & Hin & Hc)].
        -- destruct (Hst1 fn q Hq1) as [? | Hc]; [auto | ].
           right. exists t. split; [now left | exact Hc].
        -- right. exists t'. split; [now right | exact Hc].
      * exists st1. split; [reflexivity | ].
        intros fn q Hq. destruct (Hst1 fn q Hq) as [? | Hc]; [auto | ].
        right. exists t. split; [now left | exact Hc].
    + unfold cbind, iteration. rewrite Hfr. cbn.
      exists st. split; [reflexivity | auto].
Qed.

(** C10.  In an iteration on a frame [px] of the camera, what is shown is
    the display copy, with the corners and the text drawn on it when the
    pattern is found, and what is written, on SPACE with the pattern found,
    is [px] itself, under the name of the counter.  Over a whole run from the
    empty disk, every file written holds a frame exactly as the camera
    delivered it. *)
Theorem capture_writes_the_camera_frame (ticks : list (Tick Pixels))
  (t : Tick Pixels) (px : Pixels) (st : State) :
  (frame t = Some px ->
   exists b st',
     iteration t st = Some (b, st') /\
     screen st' = screen st ++ [display_of px] /\
     disk st' =
       (if (key t =? 32)%Z
           && fst (findChessboardCorners (cvtColor px) CHESSBOARD_SIZE)
        then <[filename_of (count st) := px]> (disk st) else disk st)) /\
  exists final,
    main_loop ticks state0 = Some (tt, final) /\
    forall fn img, disk final !! fn = Some img ->
      exists t', In t' ticks /\ captures t' img.
Proof.
  split; [apply iteration_frame | ].
  destruct (main_loop_disk ticks state0) as (final & Hrun & Hd).
  exists final. split; [exact Hrun | ].
  intros fn img Himg. destruct (Hd fn img Himg) as [H0 | H]; [ | exact H].
  cbn in H0. rewrite lookup_empty in H0. discriminate.
Qed.

End Run.

(** SPACE on a frame that shows the chessboard: the file is the scene, the
    screen shows the scene with the corners and the text. *)
Lemma capture_writes_the_camera_frame_example :
  let t := {| frame := Some ["chessboard"]%string; key := 32 |} in
  exists b st',
    iteration (lib := lib_example) t state0 = Some (b, st') /\
    screen st' = [["chessboard"; "corners"; "Press SPACE to save"]%string] /\
    disk st' !! "calib_images/img_00.jpg"%string
      = Some ["chessboard"%string].
Proof.
  intros t.
  destruct (capture_writes_the_camera_frame (lib := lib_example)
              [t] t ["chessboard"%string] state0) as (H & _).
  destruct (H eq_refl) as (b & st' & Hit & Hs & Hd).
  exists b, st'. split; [exact Hit | ]. split; [exact Hs | ].
  rewrite Hd. cbn. apply lookup_insert_eq.
Defined.

End CaptureTheory.

(** ** aruco_pose.py: more on the Euler angles *)

Module EulerTheory.
Import Float Py ArucoPose FloatFacts.

Section Euler.
Context {Image ndarray : Type} `{lib : Lib Image ndarray}.
Local Open Scope R_scope.

(** X2.  Whenever the matrix has no NaN entry, the roll and the yaw returned
    lie between -180 and 180 degrees, in both branches. *)
Theorem roll_yaw_range (rvec : Vec3) :
  matrix_has_no_nan (Rodrigues rvec) ->
  exists r p y,
    rotation_vector_to_euler rvec = (Fin r, Fin p, Fin y) /\
    -180 <= r <= 180 /\ -180 <= y <= 180.
Proof.
  intros Hm. unfold rotation_vector_to_euler.
  set (Rm := Rodrigues rvec) in *. set (sy := fsqrt _).
  assert (Hsy : is_nan sy = false).
  { destruct (hypot_cases (Rm 0 0)%nat (Rm 1 0)%nat) as [E | (s & E & _)];
      try (apply Hm; lia); unfold sy; rewrite E; reflexivity. }
  assert (Hdeg : forall y x, is_nan y = false -> is_nan x = false ->
            exists v, np_degrees (fatan2 y x) = Fin v /\ -180 <= v <= 180).
  { intros y x Hy Hx. destruct (fatan2_range y x Hy Hx) as (v & -> & Hv).
    exists (v * (180 / PI)). split; [reflexivity | ].
    pose proof (degrees_scale v 1 ltac:(lra)) as H.
    replace (PI / 1) with PI in H by field.
    replace (180 / 1) with 180 in H by field. apply H. lra. }
  destruct (Hdeg (fneg (Rm 2 0)%nat) sy) as (p & Hp & _);
    [rewrite fneg_nan; apply Hm; lia | exact Hsy | ].
  destruct (negb (flt sy (Fin 1e-6))); cbn [np_degrees3].
  - destruct (Hdeg (Rm 2 1)%nat (Rm 2 2)%nat) as (r & Hr & Br);
      try (apply Hm; lia).
    destruct (Hdeg (Rm 1 0)%nat (Rm 0 0)%nat) as (y & Hy & By);
      try (apply Hm; lia).
    exists r, p, y. rewrite Hr, Hp, Hy. auto.
  - destruct (Hdeg (fneg (Rm 1 2)%nat) (Rm 1 1)%nat) as (r & Hr & Br);
      [rewrite fneg_nan; apply Hm; lia | apply Hm; lia | ].
    exists r, p, (0 * (180 / PI)). rewrite Hr, Hp. split; [reflexivity | ].
    split; [exact Br | lra].
Qed.

(** X3.  When the first column of the matrix is [(0, 0, c)] with [c] not
    zero, the exact gimbal lock, the pitch returned is exactly 90 degrees for
    a negative [c] and -90 for a positive one, and the yaw is 0. *)
Theorem gimbal_lock_pitch (rvec : Vec3) (c : R) :
  let Rm := Rodrigues rvec in
  Rm 0%nat 0%nat = Fin 0 -> Rm 1%nat 0%nat = Fin 0 ->
  Rm 2%nat 0%nat = Fin c -> c <> 0 ->
  snd (fst (rotation_vector_to_euler rvec))
    = Fin (if Rlt_dec c 0 then 90 else -90) /\
  snd (rotation_vector_to_euler rvec) = Fin 0.
Proof.
  intros Rm E00 E10 E20 Hc. pose proof PI_RGT_0 as Hpi.
  unfold rotation_vector_to_euler. fold Rm.
  rewrite E00, E10, E20, hypot_zero.
  unfold flt. rewrite Rlt_dec_true by lra.
  cbn [negb np_degrees3 np_degrees fatan2 fneg fmul fst snd].
  split; [ | f_equal; ring].
  unfold atan2. rewrite !(Rlt_dec_false 0 0) by lra.
  destruct (Rlt_dec c 0) as [Hneg | Hpos].
  - rewrite Rlt_dec_true by lra. f_equal. field. lra.
  - rewrite Rlt_dec_false by lra. rewrite Rlt_dec_true by lra.
    f_equal. field. lra.
Qed.

End Euler.

Section Witnesses.
Local Open Scope R_scope.

Lemma roll_yaw_range_gimbal_lock :
  exists r p y,
    rotation_vector_to_euler (lib := lib_example solver_fails) y90
    = (Fin r, Fin p, Fin y) /\
    -180 <= r <= 180 /\ -180 <= y <= 180.
Proof.
  apply (roll_yaw_range (lib := lib_example solver_fails) y90).
  apply ArucoPoseTheory.Rodrigues_spec_no_nan,
    ArucoPoseTheory.DBL_EPSILON_pos.
Defined.

Lemma gimbal_lock_pitch_y90 :
  snd (fst (rotation_vector_to_euler (lib := lib_example solver_fails) y90))
  = Fin 90.
Proof.
  destruct ArucoPoseTheory.Rodrigues_y90_entries as (E00 & E10 & E20 & _).
  destruct (gimbal_lock_pitch (lib := lib_example solver_fails) y90 (-1)
              E00 E10 E20 ltac:(lra)) as [H _].
  rewrite H. now rewrite Rlt_dec_true by lra.
Defined.

End Witnesses.

End EulerTheory.

(** ** aruco_pose.py: more on the run *)

Module ArucoPoseRunTheory.
Import Float Py ArucoPose ArucoPoseRun FloatFacts.

Section Loop.
Context {Image ndarray : Type} `{lib : Lib Image ndarray}.
Variables cm dc : ndarray.

Lemma frames_of_cons (t : Tick Image) (rest : list (Tick Image)) :
  frames_of (t :: rest) =
    match frame t with
    | Some fr => fr :: frames_of rest
    | None => frames_of rest
    end.
Proof. unfold frames_of. cbn. destruct (frame t); reflexivity. Qed.

(** X5.  The loop shows one image for each frame it reads, up to the first
    tick without a frame or to the tick on which ESC or [q] is read, and
    nothing after, but for the frame on which the solver raises, which
    ends the run and is not shown; on the frames read it draws every pose the
    solver finds, in order, whether a detailed print is pending or not. *)
Theorem frames_read_and_shown (pd : bool)
  (ticks : list (Tick Image)) :
  frames_shown (fst (main_loop cm dc pd ticks))
    + (match loop_raise cm dc ticks with Some _ => 1 | None => 0 end)
    = length (processed cm dc ticks) /\
  draws (fst (main_loop cm dc pd ticks))
    = flat_map (frame_poses cm dc) (frames_of (processed cm dc ticks)) /\
  snd (main_loop cm dc pd ticks)
    = match loop_raise cm dc ticks with
      | Some e => inl (Raise e)
      | None => inr tt
      end.
Proof.
  assert (H : frames_shown (fst (main_loop cm dc pd ticks))
                + (match loop_raise cm dc ticks with
                   | Some _ => 1 | None => 0 end)
              = length (processed cm dc ticks) /\
              draws (fst (main_loop cm dc pd ticks))
              = flat_map (frame_poses cm dc)
                  (frames_of (processed cm dc ticks))).
  { revert pd. induction ticks as [ | t rest IH]; intros pd.
    - split; reflexivity.
    - cbn [loop_raise processed].
      destruct (frame t) as [fr | ] eqn:Hfr.
      2: { rewrite ArucoPoseTheory.main_loop_no_frame by exact Hfr.
           split; reflexivity. }
      rewrite (ArucoPoseTheory.main_loop_cons cm dc pd t fr rest Hfr).
      pose proof (ArucoPoseTheory.process_frame_spec cm dc pd fr)
        as (H1 & H2 & _ & H4).
      rewrite H1.
      destruct (frame_raise cm dc fr) as [e | ].
      { cbn [fst]. rewrite H2, H4, frames_of_cons, Hfr. cbn.
        now rewrite app_nil_r. }
      rewrite ArucoPoseTheory.handle_key_spec. fold (is_quit (key t)).
      destruct (is_quit (key t)); cbn [fst].
      { rewrite H2, H4, frames_of_cons, Hfr. cbn. now rewrite app_nil_r. }
      destruct (IH ((Z.land (key t) 255 =? 112)%Z
                    || (pd && no_pose (frame_poses cm dc fr))))
        as (IH1 & IH2).
      rewrite ArucoPoseTheory.frames_shown_app, ArucoPoseTheory.draws_app.
      rewrite H2, H4, IH2, <- Nat.add_assoc, IH1, frames_of_cons, Hfr.
      split; reflexivity. }
  destruct H as [Ha Hb]. split; [exact Ha | ]. split; [exact Hb | ].
  apply ArucoPoseTheory.main_loop_end.
Qed.

(** X6.  The poses printed in detail over a run are among the poses drawn,
    in the same order: nothing is printed that was not drawn. *)
Theorem printed_poses_are_drawn (pd : bool) (ticks : list (Tick Image)) :
  printed (fst (main_loop cm dc pd ticks))
    `sublist_of` draws (fst (main_loop cm dc pd ticks)).
Proof.
  revert pd. induction ticks as [ | t rest IH]; intros pd.
  - constructor.
  - destruct (frame t) as [fr | ] eqn:Hfr;
      [ | rewrite ArucoPoseTheory.main_loop_no_frame by exact Hfr;
          constructor].
    rewrite (ArucoPoseTheory.main_loop_cons cm dc pd t fr rest Hfr).
    pose proof (ArucoPoseTheory.process_frame_spec cm dc pd fr)
      as (_ & H2 & H3 & _).
    assert (Hevs : printed (fst (process_frame cm dc pd fr))
                   `sublist_of` draws (fst (process_frame cm dc pd fr))).
    { rewrite H2, H3.
      destruct pd; [apply sublist_take | apply sublist_nil_l]. }
    destruct (snd (process_frame cm dc pd fr)) as [stop | pd'];
      [exact Hevs | ].
    destruct (handle_key pd' (key t)); [ | exact Hevs].
    cbn [fst].
    rewrite ArucoPoseTheory.printed_app, ArucoPoseTheory.draws_app.
    now apply sublist_app.
Qed.

(** The loop shows, draws and prints, and nothing else. *)
Lemma main_loop_no_done (pd : bool) (ticks : list (Tick Image)) :
  last (fst (main_loop cm dc pd ticks)) <> Some Done.
Proof.
  assert (Hfm : forall ms b, ~ In Done (fst (for_markers cm dc b ms))).
  { induction ms as [ | [c id] rest IHm]; intros b; cbn [for_markers].
    - intros [].
    - destruct (solvePnP marker_points c cm dc) as [e | [[success rv] tv]];
        [intros [] | ].
      destruct success; [ | apply IHm].
      destruct b.
      + specialize (IHm false). destruct (for_markers cm dc false rest).
        cbn [fst] in *. intros [H | [H | H]]; (discriminate || auto).
      + specialize (IHm false). destruct (for_markers cm dc false rest).
        cbn [fst] in *. intros [H | H]; (discriminate || auto). }
  assert (Hpf : forall b fr, ~ In Done (fst (process_frame cm dc b fr))).
  { intros b fr. unfold process_frame.
    destruct (detectMarkers fr) as [corners ids].
    destruct ids as [[ | i l] | ];
      try (cbn; intros [H | [H | []]]; discriminate).
    specialize (Hfm (combine corners (i :: l)) b).
    destruct (for_markers cm dc b (combine corners (i :: l)))
      as [evs [stop | b']]; cbn [fst] in *; [exact Hfm | ].
    rewrite in_app_iff. intros [H | [H | []]]; (discriminate || auto). }
  assert (Hml : forall l b, ~ In Done (fst (main_loop cm dc b l))).
  { induction l as [ | t rest IHl]; intros b; [intros [] | ].
    destruct (frame t) as [fr | ] eqn:Hfr;
      [ | rewrite ArucoPoseTheory.main_loop_no_frame by exact Hfr;
          intros []].
    rewrite (ArucoPoseTheory.main_loop_cons cm dc b t fr rest Hfr).
    specialize (Hpf b fr).
    destruct (snd (process_frame cm dc b fr)) as [stop | b'];
      [exact Hpf | ].
    destruct (handle_key b' (key t)) as [b'' | ]; [ | exact Hpf].
    cbn [fst]. rewrite in_app_iff. intros [H | H]; [auto | ].
    now apply (IHl b''). }
  intros H. apply (Hml ticks pd).
  destruct (fst (main_loop cm dc pd ticks)) as [ | e l] using rev_ind;
    [discriminate | ].
  rewrite last_snoc in H. injection H as ->. apply in_app_iff. right.
  now left.
Qed.

End Loop.

(** X7.  Only the low byte of the key code counts: two codes that differ by
    a multiple of 256 are handled alike. *)
Theorem handle_key_low_byte (pd : bool) (k n : Z) :
  handle_key pd (k + 256 * n) = handle_key pd k.
Proof.
  unfold handle_key.
  assert (E : Z.land (k + 256 * n) 255 = Z.land k 255).
  { change 255%Z with (Z.ones 8). rewrite !Z.land_ones by lia.
    change (2 ^ 8)%Z with 256%Z. rewrite Z.mul_comm. apply Z_mod_plus_full. }
  now rewrite E.
Qed.

Section Startup.
Context {Image ndarray : Type} `{lib : Lib Image ndarray}.

Lemma load_ok_inv (file : option FileContent) (a1 a2 : ndarray)
  (evs : list Event) :
  load_calibration file = (evs, inr (a1, a2)) ->
  evs = [] /\
  exists m v1 v2,
    file = Some (Parses (YMap m)) /\
    dict_get m "camera_matrix" = Some v1 /\
    dict_get m "dist_coeff" = Some v2 /\
    np_array v1 = inr a1 /\ np_array v2 = inr a2.
Proof.
  destruct file as [[ | doc] | ]; cbn; try discriminate.
  intros [= <- E]. split; [reflexivity | ].
  unfold getitem, call in E. destruct doc; try discriminate.
  destruct (dict_get m "camera_matrix") as [v1 | ] eqn:E1; [ | discriminate].
  cbn in E. destruct (np_array v1) as [e1 | b1] eqn:N1; [discriminate | ].
  cbn in E.
  destruct (dict_get m "dist_coeff") as [v2 | ] eqn:E2; [ | discriminate].
  cbn in E. destruct (np_array v2) as [e2 | b2] eqn:N2; [discriminate | ].
  cbn in E. injection E as <- <-. exists m, v1, v2. auto.
Qed.

(** X8.  Loading returns the pair of arrays [(a1, a2)] exactly when the
    document is a dict, [a1] is what numpy makes of its [camera_matrix] and
    [a2] what it makes of its [dist_coeff]: the two fields are not swapped,
    and no other field is read. *)
Theorem loaded_arrays_are_the_fields (file : option FileContent)
  (a1 a2 : ndarray) :
  snd (load_calibration file) = inr (a1, a2) <->
  exists m v1 v2,
    file = Some (Parses (YMap m)) /\
    dict_get m "camera_matrix" = Some v1 /\
    dict_get m "dist_coeff" = Some v2 /\
    np_array v1 = inr a1 /\ np_array v2 = inr a2.
Proof.
  split.
  - intros H. destruct (load_calibration file) as [evs r] eqn:E.
    cbn in H. subst r. now apply load_ok_inv in E as [_ ?].
  - intros (m & v1 & v2 & -> & H1 & H2 & H3 & H4). cbn. unfold getitem.
    rewrite H1. cbn. rewrite H3. cbn. rewrite H2. cbn. now rewrite H4.
Qed.

(** X9.  The exception that ends a failed load tells what is wrong: a dict
    without [camera_matrix] raises [KeyError] on that key; with it, and an
    array made of it, a dict without [dist_coeff] raises [KeyError] on that
    one; an exception of [np.array] on [camera_matrix] is passed on; a
    document that is not a dict raises [TypeError]. *)
Theorem load_errors (m : list (string * yaml)) (doc : yaml) :
  (dict_get m "camera_matrix" = None ->
     snd (load_calibration (Some (Parses (YMap m))))
     = inl (Raise (KeyError "camera_matrix"))) /\
  (forall v1 a1,
     dict_get m "camera_matrix" = Some v1 -> np_array v1 = inr a1 ->
     dict_get m "dist_coeff" = None ->
     snd (load_calibration (Some (Parses (YMap m))))
     = inl (Raise (KeyError "dist_coeff"))) /\
  (forall v1 e,
     dict_get m "camera_matrix" = Some v1 -> np_array v1 = inl e ->
     snd (load_calibration (Some (Parses (YMap m)))) = inl (Raise e)) /\
  ((forall m', doc <> YMap m') ->
     snd (load_calibration (Some (Parses doc))) = inl (Raise TypeError)).
Proof.
  split; [ | split; [ | split]].
  - intros H. cbn. unfold getitem. now rewrite H.
  - intros v1 a1 H1 H3 H2. cbn. unfold getitem.
    rewrite H1. cbn. rewrite H3. cbn. now rewrite H2.
  - intros v1 e H1 H3. cbn. unfold getitem. rewrite H1. cbn. now rewrite H3.
  - intros H. destruct doc; try reflexivity. now destruct (H m0).
Qed.

(** X10.  The script ends with status 0 exactly when the calibration is
    loaded, the webcam opens and the solver raises in none of the frames the
    loop reads; any other run ends with status 1.  When the calibration is
    not loaded or the webcam does not open, no frame has been shown.  The
    runs that end with status 0 are those whose last line is "Done!". *)
Theorem exit_status_zero_iff (file : option FileContent) (cam : bool)
  (ticks : list (Tick Image)) :
  (exit_status (snd (main file cam ticks)) = 0%Z <->
     cam = true /\
     exists a1 a2,
       snd (load_calibration file) = inr (a1, a2) /\
       loop_raise a1 a2 ticks = None) /\
  (exit_status (snd (main file cam ticks)) <> 0%Z ->
     exit_status (snd (main file cam ticks)) = 1%Z) /\
  (cam = false \/ (exists s, snd (load_calibration file) = inl s) ->
     frames_shown (fst (main file cam ticks)) = 0) /\
  (exit_status (snd (main file cam ticks)) = 0%Z <->
     last (fst (main file cam ticks)) = Some Done).
Proof.
  destruct (load_calibration file) as [evs [s | [a1 a2]]] eqn:E.
  - destruct (ArucoPoseTheory.main_stops file cam ticks s)
      as (Hm & Hs & Hf); [now rewrite E | ].
    rewrite E in Hm. rewrite Hm in *. cbn [fst snd] in *.
    assert (Hl : last evs <> Some Done).
    { destruct file as [[ | doc] | ]; cbn in E; injection E as <- _;
        discriminate. }
    split; [split | split; [ | split; [ | split]]].
    + intros H0. lia.
    + intros (_ & b1 & b2 & H0 & _). discriminate.
    + intros _. exact Hs.
    + intros _. exact Hf.
    + intros H0. lia.
    + intros H0. contradiction.
  - apply load_ok_inv in E as Hinv. destruct Hinv as (-> & _).
    destruct cam.
    + rewrite (ArucoPoseTheory.main_run file ticks a1 a2 E).
      pose proof (main_loop_no_done a1 a2 false ticks) as Hnd.
      destruct (loop_raise a1 a2 ticks) as [e | ] eqn:Hr;
        cbn [fst snd exit_status].
      * split; [split | split; [ | split; [ | split]]].
        -- discriminate.
        -- intros (_ & b1 & b2 & [= <- <-] & H0). congruence.
        -- reflexivity.
        -- intros [H0 | (s & H0)]; discriminate.
        -- discriminate.
        -- intros H0. exfalso.
           destruct (fst (main_loop a1 a2 false ticks)) as [ | e0 l];
             [discriminate | ].
           now rewrite last_cons_cons in H0.
      * split; [split | split; [ | split; [ | split]]].
        -- intros _. split; [reflexivity | ]. exists a1, a2. auto.
        -- reflexivity.
        -- intros H0. now destruct H0.
        -- intros [H0 | (s & H0)]; discriminate.
        -- intros _. rewrite app_comm_cons. apply last_snoc.
        -- reflexivity.
    + unfold main. rewrite E. cbn [negb fst snd exit_status app].
      split; [split | split; [ | split; [ | split]]].
      * discriminate.
      * intros [H0 _]. discriminate.
      * reflexivity.
      * reflexivity.
      * discriminate.
      * discriminate.
Qed.

End Startup.

(** A file with the two fields loads, on a numpy that takes every value. *)
Lemma loaded_arrays_are_the_fields_example :
  snd (load_calibration (lib := lib_example solver_fails)
         (Some good_calibration))
  = inr (YSeq [], YSeq []).
Proof.
  apply (loaded_arrays_are_the_fields (lib := lib_example solver_fails)).
  exists [("camera_matrix", YSeq []); ("dist_coeff", YSeq [])],
    (YSeq []), (YSeq []).
  repeat split.
Defined.

(** A file without [camera_matrix], and a numpy that refuses the field. *)
Lemma load_errors_examples :
  snd (load_calibration (lib := lib_example solver_fails)
         (Some (Parses (YMap [("dist_coeff", YSeq [])]))))
  = inl (Raise (KeyError "camera_matrix")) /\
  snd (load_calibration (lib := lib_strict) (Some good_calibration))
  = inl (Raise ValueError).
Proof.
  split.
  - apply (load_errors (lib := lib_example solver_fails)
             [("dist_coeff", YSeq [])] YNull).
    reflexivity.
  - apply (load_errors (lib := lib_strict)
             [("camera_matrix", YSeq []); ("dist_coeff", YSeq [])] YNull)
      with (v1 := YSeq []); reflexivity.
Defined.

(** With a calibration, the webcam and a marker in view, the status is 0;
    with the two fields empty, the solver raises on the marker and the
    status is not 0. *)
Lemma exit_status_zero_iff_example :
  exit_status
    (snd (main (lib := lib_example solver_front) (Some calibration_example)
            true [ {| frame := Some [(square, 7%Z)]; key := 113 |} ]))
  = 0%Z /\
  exit_status
    (snd (main (lib := lib_example solver_front) (Some good_calibration)
            true [ {| frame := Some [(square, 7%Z)]; key := 113 |} ]))
  <> 0%Z.
Proof.
  split.
  - destruct (exit_status_zero_iff (lib := lib_example solver_front)
                (Some calibration_example) true
                [ {| frame := Some [(square, 7%Z)]; key := 113 |} ])
      as [[_ H] _].
    apply H. split; [reflexivity | ].
    exists camera_matrix_example, dist_coeff_example.
    split; reflexivity.
  - destruct (exit_status_zero_iff (lib := lib_example solver_front)
                (Some good_calibration) true
                [ {| frame := Some [(square, 7%Z)]; key := 113 |} ])
      as [[H _] _].
    intros H0. destruct (H H0) as (_ & a1 & a2 & Hl & Hr).
    cbn in Hl. injection Hl as <- <-. discriminate Hr.
Defined.

End ArucoPoseRunTheory.

(** ** calibrate.py: more on the run *)

Module CalibrateRunTheory.
Import Float Py Calibrate CalibrateRun FloatFacts.

Section Run.
Context {Image : Type} `{lib : Lib Image}.

Lemma grays_snoc (images : list string) (f : string) :
  grays (images ++ [f]) =
    grays images
    ++ match imread f with Some img => [cvtColor img] | None => [] end.
Proof.
  unfold grays. rewrite omap_app. cbn. destruct (imread f); reflexivity.
Qed.

Lemma successCount_snoc (images : list string) (f : string) :
  successCount (images ++ [f])
  = successCount images + (if is_sample f then 1 else 0).
Proof.
  unfold successCount. rewrite List.filter_app, length_app. cbn.
  destruct (is_sample f); reflexivity.
Qed.

Lemma process_images_snoc (images : list string) (f : string) :
  process_images (images ++ [f]) = process_image (process_images images) f.
Proof. unfold process_images. now rewrite fold_left_app. Qed.

(** What the loop over the images leaves in its variables. *)
Lemma process_images_spec (images : list string) :
  let a := process_images images in
  successful a = successCount images /\
  successful a + failed a = length images /\
  objpoints a = replicate (successCount images) objp /\
  imgpoints a = map sample_corners (List.filter is_sample images) /\
  gray a = last (grays images) /\
  out a = map report images.
Proof.
  induction images as [ | f images IH] using rev_ind.
  - cbn. repeat split.
  - rewrite process_images_snoc. cbv zeta in IH.
    destruct IH as (H1 & H2 & H3 & H4 & H5 & H6).
    set (a := process_images images) in *.
    rewrite successCount_snoc, grays_snoc, List.filter_app, !map_app,
      length_app.
    cbn [List.filter map length].
    assert (Es : is_sample f =
                 match imread f with
                 | Some img =>
                     fst (findChessboardCorners (cvtColor img) CHESSBOARD_SIZE)
                 | None => false
                 end) by reflexivity.
    assert (Er : report f =
                 match imread f with
                 | None => CouldNotRead f
                 | Some img =>
                     if fst (findChessboardCorners (cvtColor img)
                               CHESSBOARD_SIZE)
                     then Detected f else NotDetected f
                 end) by reflexivity.
    assert (Ec : sample_corners f =
                 match imread f with
                 | None => []
                 | Some img =>
                     cornerSubPix (cvtColor img)
                       (snd (findChessboardCorners (cvtColor img)
                               CHESSBOARD_SIZE))
                       (11, 11) (-1, -1)%Z criteria
                 end) by reflexivity.
    unfold process_image.
    destruct (imread f) as [img | ].
    + destruct (findChessboardCorners (cvtColor img) CHESSBOARD_SIZE)
        as [found corners].
      rewrite last_snoc. cbn [fst snd] in *. rewrite Es, Er.
      destruct found;
        cbn [objpoints imgpoints successful failed gray out map app].
      * rewrite Ec, H3, H4, H6, !Nat.add_1_r, replicate_S_end.
        repeat split; lia.
      * rewrite !app_nil_r, Nat.add_0_r, H3, H4, H6. repeat split; lia.
    + rewrite Es, Er.
      cbn [objpoints imgpoints successful failed gray out map app].
      rewrite !app_nil_r, Nat.add_0_r, H3, H4, H5, H6. repeat split; lia.
Qed.

(** X11.  Every image is counted once, as a success or as a failure, the
    successes being the readable images in which the pattern is found, and
    the loop prints one line for each image, in order. *)
Theorem every_image_is_counted (images : list string) :
  let a := process_images images in
  successful a + failed a = length images /\
  successful a = successCount images /\
  out a = map report images.
Proof.
  destruct (process_images_spec images) as (H1 & H2 & _ & _ & _ & H6). auto.
Qed.

(** X12.  With three samples or more, the solver is called on one copy of
    the grid and one list of refined corners for each sample, in the order
    of the images, the other images leaving nothing, and on the size of the
    last image that could be read, sample or not; what it returns is what
    is written. *)
Theorem solver_gets_the_samples (images : list string) :
  let n := successCount images in
  3 <= n ->
  exists g,
    last (grays images) = Some g /\
    forall c,
      calibrateCamera (replicate n objp)
        (map sample_corners (List.filter is_sample images)) (shape_rev g)
      = Some c ->
      written (main (Some images)) =
        Some {| camera_matrix := mtx c; dist_coeff := dist c;
                reprojection_error := rms c |}.
Proof.
  intros n Hn.
  destruct (process_images_spec images) as (_ & _ & H3 & H4 & H5 & _).
  destruct (CalibrateTheory.main_enough images Hn) as (g & Hg & Hmain).
  exists g. split; [now rewrite <- H5 | ].
  intros c Hc. rewrite Hmain, H3, H4. fold n. now rewrite Hc.
Qed.

(** X13.  The calibration file is written exactly by the runs that end with
    status 0; every other run, whatever the directory holds, ends with
    status 1 and writes nothing. *)
Theorem written_only_on_success (dir : option (list string)) :
  (is_Some (written (main dir)) <-> stop (main dir) = SysExit 0) /\
  (stop (main dir) <> SysExit 0 -> exit_status (stop (main dir)) = 1%Z).
Proof.
  destruct dir as [images | ].
  2: { cbn. split; [split | ]; [intros [? ?] | | ];
         (discriminate || reflexivity). }
  destruct (Nat.lt_ge_cases (successCount images) 3) as [Hlt | Hge].
  - destruct images as [ | f rest].
    + cbn. split; [split | ]; [intros [? ?] | | ];
        (discriminate || reflexivity).
    + rewrite CalibrateTheory.main_not_enough by (discriminate || exact Hlt).
      cbn. split; [split | ]; [intros [? ?] | | ];
        (discriminate || reflexivity).
  - destruct (CalibrateTheory.main_enough images Hge) as (g & _ & ->).
    destruct (calibrateCamera _ _ _); cbn.
    + split; [split | ]; [reflexivity | eauto | congruence].
    + split; [split | ]; [intros [? ?] | | ];
        (discriminate || reflexivity).
Qed.

(** X14.  The four classes of quality are told apart by the three
    comparisons alone: excellent is [e < 0.5]; good is not [e < 0.5] but
    [e < 1.0]; acceptable is not [e < 1.0] but [e < 2.0]; poor is not
    [e < 2.0], which holds of NaN too. *)
Theorem quality_classes (e : float) :
  (quality e = Excellent <-> flt e (Fin 0.5) = true) /\
  (quality e = Good <->
     flt e (Fin 0.5) = false /\ flt e (Fin 1.0) = true) /\
  (quality e = Acceptable <->
     flt e (Fin 1.0) = false /\ flt e (Fin 2.0) = true) /\
  (quality e = Poor <-> flt e (Fin 2.0) = false).
Proof.
  assert (M1 : flt e (Fin 0.5) = true -> flt e (Fin 1.0) = true).
  { destruct e as [ | | | x]; unfold flt; try discriminate; try reflexivity.
    destruct (Rlt_dec x 0.5); [ | discriminate].
    intros _. apply Rlt_dec_true. lra. }
  assert (M2 : flt e (Fin 1.0) = true -> flt e (Fin 2.0) = true).
  { destruct e as [ | | | x]; unfold flt; try discriminate; try reflexivity.
    destruct (Rlt_dec x 1.0); [ | discriminate].
    intros _. apply Rlt_dec_true. lra. }
  unfold quality.
  destruct (flt e (Fin 0.5)) eqn:E1.
  { pose proof (M2 (M1 eq_refl)) as E3. pose proof (M1 eq_refl) as E2.
    rewrite E2, E3.
    repeat split; try discriminate; try reflexivity;
      intros [? ?]; discriminate. }
  destruct (flt e (Fin 1.0)) eqn:E2.
  { pose proof (M2 eq_refl) as E3. rewrite E3.
    repeat split; try discriminate; try reflexivity;
      intros [? ?]; discriminate. }
  destruct (flt e (Fin 2.0)) eqn:E3;
    repeat split; try discriminate; try reflexivity;
    intros [? ?]; discriminate.
Qed.

End Run.

Section Examples.
Local Open Scope R_scope.

(** Three samples and, last, an image without the pattern. *)
Lemma solver_gets_the_samples_example :
  exists d,
    written (main (lib := lib_example step_still (solve_with 0.3))
               (Some ["board1.jpg"; "board2.jpg"; "unreadable.jpg";
                      "board3.jpg"; "blurry.jpg"]%string))
    = Some d.
Proof.
  destruct (solver_gets_the_samples
              (lib := lib_example step_still (solve_with 0.3))
              ["board1.jpg"; "board2.jpg"; "unreadable.jpg";
               "board3.jpg"; "blurry.jpg"]%string)
    as (g & _ & H); [vm_compute; lia | ].
  eexists. apply (H (calibration_with 0.3)). reflexivity.
Defined.

(** A directory that does not exist: nothing is written. *)
Lemma written_only_on_success_example :
  written (main (lib := lib_example step_still (solve_with 0.3)) None) = None.
Proof.
  destruct (written_only_on_success
              (lib := lib_example step_still (solve_with 0.3)) None)
    as [[H _] _].
  destruct (written (main None)) as [d | ] eqn:E; [ | reflexivity].
  discriminate (H ltac:(eauto)).
Defined.

(** An error of 0.7 pixel is good. *)
Lemma quality_classes_example : quality (Fin 0.7) = Good.
Proof.
  apply (quality_classes (Fin 0.7)). unfold flt.
  split; [apply Rlt_dec_false | apply Rlt_dec_true]; lra.
Defined.

End Examples.

End CalibrateRunTheory.

(** ** capture.py: more on the run *)

Module CaptureRunTheory.
Import Float Capture CaptureRun.

Section Run.
Context {Pixels : Type} `{lib : Lib Pixels}.

(** The effect of an iteration on everything but the heap, and whether the
    loop goes on. *)
Lemma iteration_effect (t : Tick Pixels) (px : Pixels) (st : State) :
  frame t = Some px ->
  let found := fst (findChessboardCorners (cvtColor px) CHESSBOARD_SIZE) in
  let capture := (key t =? 32)%Z && found in
  exists b st',
    iteration t st = Some (b, st') /\
    screen st' = screen st ++ [display_of px] /\
    count st' = (if capture then count st + 1 else count st) /\
    disk st' =
      (if capture then <[filename_of (count st) := px]> (disk st)
       else disk st) /\
    b = (if capture then negb (NUM_IMAGES <=? count st + 1)%nat
         else negb (key t =? 27)%Z).
Proof.
  intros Hfr found capture. subst found capture. unfold iteration. rewrite Hfr.
  rewrite CaptureTheory.run_alloc.
  set (l1 := fresh (dom (heap st))).
  set (st1 := set_heap _ st).
  assert (E1 : heap st1 !! l1 = Some px) by apply lookup_insert_eq.
  rewrite (CaptureTheory.run_copy l1 px) by exact E1.
  set (l2 := fresh (dom (heap st1))).
  assert (N21 : l2 <> l1) by (apply CaptureTheory.fresh_ne; rewrite E1; eauto).
  set (st2 := set_heap _ st1).
  assert (E21 : heap st2 !! l1 = Some px).
  { cbn. rewrite lookup_insert_ne by exact N21. exact E1. }
  assert (E22 : heap st2 !! l2 = Some px) by apply lookup_insert_eq.
  rewrite (CaptureTheory.run_load l1 px) by exact E21.
  rewrite CaptureTheory.run_alloc.
  set (l3 := fresh (dom (heap st2))).
  assert (N31 : l3 <> l1)
    by (apply CaptureTheory.fresh_ne; rewrite E21; eauto).
  assert (N32 : l3 <> l2)
    by (apply CaptureTheory.fresh_ne; rewrite E22; eauto).
  set (st3 := set_heap _ st2).
  assert (E31 : heap st3 !! l1 = Some px).
  { cbn. rewrite lookup_insert_ne by exact N31. exact E21. }
  assert (E32 : heap st3 !! l2 = Some px).
  { cbn. rewrite lookup_insert_ne by exact N32. exact E22. }
  rewrite (CaptureTheory.run_load l3 (cvtColor px)) by apply lookup_insert_eq.
  unfold display_of, filename_of.
  destruct (findChessboardCorners (cvtColor px) CHESSBOARD_SIZE)
    as [found corners].
  cbn [fst].
  assert (C : count st3 = count st /\ disk st3 = disk st
              /\ screen st3 = screen st) by (repeat split).
  destruct C as (Ec & Ed & Es).
  clearbody l2 l3 st3. clear st1 st2 E1 E21 E22.
  destruct found.
  - unfold cbind at 1. rewrite (CaptureTheory.run_modify l2 _ px) by exact E32.
    set (st4 := set_heap _ st3).
    cbv beta.
    rewrite (CaptureTheory.modify_eq l2 _
               (drawChessboardCorners px CHESSBOARD_SIZE corners true))
      by apply lookup_insert_eq.
    set (st5 := set_heap _ st4).
    assert (E51 : heap st5 !! l1 = Some px).
    { cbn. rewrite !lookup_insert_ne by exact N21. exact E31. }
    rewrite (CaptureTheory.run_imshow l2
               (putText (drawChessboardCorners px CHESSBOARD_SIZE corners true)
                  "Press SPACE to save" (10, 30)%Z))
      by apply lookup_insert_eq.
    rewrite andb_true_r.
    destruct (key t =? 32)%Z.
    + unfold cbind at 1. unfold get_count at 1.
      rewrite (CaptureTheory.run_imwrite _ l1 px) by exact E51.
      unfold cbind, print, set_count. clear E51. subst st5 st4.
      cbn [heap count disk screen out set_heap]. rewrite Ec, Ed, Es.
      destruct (NUM_IMAGES <=? count st + 1)%nat; cbn;
        eexists _, _; (split; [reflexivity | cbn; auto]).
    + destruct (key t =? 27)%Z; cbn; rewrite ?Ec, ?Ed, ?Es;
        eexists _, _;
        (split; [reflexivity | cbn; rewrite ?Ec, ?Ed, ?Es; auto]).
  - unfold cbind at 1. unfold cret at 1.
    rewrite (CaptureTheory.run_imshow l2 px) by exact E32.
    rewrite andb_false_r.
    destruct (key t =? 27)%Z; cbn; rewrite ?Ec, ?Ed, ?Es;
      eexists _, _;
      (split; [reflexivity | cbn; rewrite ?Ec, ?Ed, ?Es; auto]).
Qed.

Lemma names_upto_S (n : nat) :
  names_upto (S n) = names_upto n ++ [filename_of n].
Proof. unfold names_upto. now rewrite seq_S, map_app. Qed.

Lemma names_upto_length (n : nat) : length (names_upto n) = n.
Proof. unfold names_upto. now rewrite length_map, length_seq. Qed.

(** The ten names [img_00.jpg] to [img_09.jpg] are distinct. *)
Lemma names_distinct : NoDup (names_upto NUM_IMAGES).
Proof.
  apply (bool_decide_unpack (NoDup (names_upto NUM_IMAGES))).
  vm_compute. exact I.
Qed.

Lemma names_upto_distinct (n : nat) :
  n <= NUM_IMAGES -> NoDup (names_upto n).
Proof.
  intros Hn. pose proof names_distinct as H. unfold names_upto in *.
  replace NUM_IMAGES with (n + (NUM_IMAGES - n)) in H by lia.
  rewrite seq_app, map_app in H. now apply NoDup_app in H as (H & _).
Qed.

Lemma camera_frames_cons (t : Tick Pixels) (rest : list (Tick Pixels)) :
  frames_of (t :: rest) =
    match frame t with
    | Some px => px :: frames_of rest
    | None => frames_of rest
    end.
Proof. unfold frames_of. cbn. destruct (frame t); reflexivity. Qed.

(** The invariant of the loop: below the limit, the files on the disk are
    those of the counters passed. *)
Lemma main_loop_inv (ticks : list (Tick Pixels)) (st : State) :
  count st < NUM_IMAGES ->
  dom (disk st) = list_to_set (names_upto (count st)) ->
  exists st',
    main_loop ticks st = Some (tt, st') /\
    count st <= count st' <= NUM_IMAGES /\
    dom (disk st') = list_to_set (names_upto (count st')) /\
    exists n,
      screen st' = screen st ++ map display_of (take n (frames_of ticks)).
Proof.
  revert st. induction ticks as [ | t rest IH]; intros st Hc Hd;
    cbn [main_loop].
  - exists st. repeat split; try lia; auto.
    exists 0. cbn. now rewrite app_nil_r.
  - destruct (frame t) as [px | ] eqn:Hfr.
    + destruct (iteration_effect t px st Hfr)
        as (b & st1 & Hit & Hs & Hcnt & Hdisk & Hb).
      cbv zeta in *. unfold cbind. rewrite Hit.
      set (capture :=
             ((key t =? 32)%Z
              && fst (findChessboardCorners (cvtColor px) CHESSBOARD_SIZE)))
        in *.
      assert (Hd1 : dom (disk st1) = list_to_set (names_upto (count st1))).
      { rewrite Hdisk, Hcnt. destruct capture; [ | exact Hd].
        rewrite dom_insert_L, Hd, Nat.add_1_r, names_upto_S,
          list_to_set_app_L.
        cbn [list_to_set]. rewrite (right_id_L ∅ (∪)). apply (comm_L (∪)). }
      assert (Hc1 : count st <= count st1 <= count st + 1)
        by (rewrite Hcnt; destruct capture; lia).
      rewrite camera_frames_cons, Hfr.
      destruct b.
      * assert (Hlt : count st1 < NUM_IMAGES).
        { rewrite Hcnt. destruct capture; [ | exact Hc].
          symmetry in Hb. apply negb_true_iff, Nat.leb_gt in Hb. lia. }
        destruct (IH st1 Hlt Hd1) as (st' & Hrun & Hcs & Hds & n & Hsc).
        exists st'. repeat split; try lia; auto.
        exists (S n). rewrite Hsc, Hs. cbn. now rewrite <- app_assoc.
      * exists st1. repeat split; try lia; auto.
        exists 1. cbn. now rewrite take_0.
    + unfold cbind, iteration. rewrite Hfr. cbn.
      exists st. repeat split; try lia; auto.
      exists 0. cbn. now rewrite app_nil_r.
Qed.

(** A tick without a frame, or with ESC, does not let the loop go on. *)
Lemma stopping_tick (t : Tick Pixels) (st : State) :
  frame t = None \/ key t = 27%Z ->
  match iteration t st with
  | Some (b, _) => b = false
  | None => True
  end.
Proof.
  intros H. destruct (frame t) as [px | ] eqn:Hfr.
  - destruct H as [H | Hk]; [discriminate | ].
    destruct (iteration_effect t px st Hfr)
      as (b & st' & -> & _ & _ & _ & ->).
    rewrite Hk. reflexivity.
  - unfold iteration. rewrite Hfr. reflexivity.
Qed.

(** X15.  Whatever the camera and the keyboard deliver, the run ends with at
    most [NUM_IMAGES] files, which are exactly [img_00.jpg] up to the
    counter, none missing and none written twice: the disk holds as many
    files as the counter says. *)
Theorem files_are_numbered (ticks : list (Tick Pixels)) :
  exists final,
    main_loop ticks state0 = Some (tt, final) /\
    count final <= NUM_IMAGES /\
    dom (disk final) = list_to_set (names_upto (count final)) /\
    size (disk final) = count final.
Proof.
  destruct (main_loop_inv ticks state0) as (final & Hrun & Hc & Hd & _).
  { cbn. unfold NUM_IMAGES. lia. }
  { cbn. now rewrite dom_empty_L. }
  exists final. split; [exact Hrun | ]. split; [lia | ].
  split; [exact Hd | ].
  rewrite <- size_dom, Hd, size_list_to_set by (apply names_upto_distinct; lia).
  apply names_upto_length.
Qed.

(** While no tick stops the loop, every frame is shown and every capture
    counted; the loop goes on with the rest. *)
Lemma main_loop_going (pre : list (Tick Pixels)) (st : State) :
  Forall (fun u => is_Some (frame u) /\ key u <> 27%Z) pre ->
  count st + length (List.filter is_capture pre) < NUM_IMAGES ->
  exists st',
    (forall l, main_loop (pre ++ l) st = main_loop l st') /\
    screen st' = screen st ++ map display_of (frames_of pre) /\
    count st' = count st + length (List.filter is_capture pre).
Proof.
  revert st. induction pre as [ | u pre IH]; intros st Hgo Hn.
  - exists st. cbn. rewrite app_nil_r, Nat.add_0_r. auto.
  - apply Forall_cons in Hgo as [[[px Hfr] Hk] Hgo].
    destruct (iteration_effect u px st Hfr)
      as (b & st1 & Hit & Hs & Hcnt & _ & Hb).
    cbv zeta in Hcnt, Hb.
    assert (Hc : is_capture u
                 = (key u =? 32)%Z
                   && fst (findChessboardCorners (cvtColor px)
                             CHESSBOARD_SIZE)).
    { unfold is_capture. now rewrite Hfr. }
    rewrite <- Hc in Hcnt, Hb. cbn [List.filter] in Hn |- *.
    assert (Hb' : b = true).
    { rewrite Hb. destruct (is_capture u); cbn [length] in Hn.
      - apply negb_true_iff, Nat.leb_gt. lia.
      - apply negb_true_iff, Z.eqb_neq. exact Hk. }
    clear Hb. subst b.
    destruct (IH st1 Hgo) as (st' & Hrun & Hs' & Hc').
    { rewrite Hcnt. destruct (is_capture u); cbn [length] in Hn; lia. }
    exists st'. split; [ | split].
    + intros l. cbn [app main_loop]. unfold cbind at 1. rewrite Hit.
      apply Hrun.
    + rewrite Hs', Hs, camera_frames_cons, Hfr. cbn [map].
      now rewrite <- app_assoc.
    + rewrite Hc', Hcnt. destruct (is_capture u); cbn [length]; lia.
Qed.

(** X16.  The window shows the frames the camera delivers, one image for
    each, in order: all of them while no tick stops the loop, and, when a
    tick does (a failed read, ESC, or the capture that reaches
    [NUM_IMAGES]), the frames up to that tick, its own included, and none
    after.  Each image is the frame itself or, when the pattern is found in
    it, the frame with the corners and the text drawn. *)
Theorem screen_follows_the_camera (pre rest : list (Tick Pixels))
  (t : Tick Pixels) :
  let n := length (List.filter is_capture pre) in
  Forall (fun u => is_Some (frame u) /\ key u <> 27%Z) pre ->
  n < NUM_IMAGES ->
  (exists st,
     main_loop pre state0 = Some (tt, st) /\
     screen st = map display_of (frames_of pre) /\
     count st = n) /\
  (frame t = None \/ key t = 27%Z
   \/ (is_capture t = true /\ n + 1 = NUM_IMAGES) ->
   exists st,
     main_loop (pre ++ t :: rest) state0 = Some (tt, st) /\
     screen st = map display_of (frames_of (pre ++ [t]))).
Proof.
  intros n Hgo Hn.
  destruct (main_loop_going pre state0 Hgo) as (st' & Hrun & Hs & Hc);
    [exact Hn | ].
  cbn [screen count state0 app] in Hs, Hc. fold n in Hc.
  split.
  - exists st'. split; [ | auto].
    rewrite <- (app_nil_r pre) at 1. rewrite Hrun. reflexivity.
  - intros Hstop. rewrite Hrun. unfold frames_of. rewrite omap_app.
    fold (frames_of pre). fold (frames_of [t]).
    rewrite camera_frames_cons. cbn [main_loop]. unfold cbind at 1.
    destruct (frame t) as [px | ] eqn:Hfr.
    + destruct (iteration_effect t px st' Hfr)
        as (b & st1 & Hit & Hs1 & _ & _ & Hb).
      cbv zeta in Hb. rewrite Hit.
      assert (Hcap : is_capture t
                     = (key t =? 32)%Z
                       && fst (findChessboardCorners (cvtColor px)
                                 CHESSBOARD_SIZE)).
      { unfold is_capture. now rewrite Hfr. }
      rewrite <- Hcap in Hb.
      assert (Hb' : b = false).
      { rewrite Hb. destruct Hstop as [H | [H | [H1 H2]]].
        - discriminate.
        - rewrite Hcap, H. reflexivity.
        - rewrite H1. apply negb_false_iff, Nat.leb_le. lia. }
      clear Hb. subst b. exists st1. split; [reflexivity | ].
      rewrite Hs1, Hs, map_app. reflexivity.
    + unfold iteration. rewrite Hfr. exists st'. split; [reflexivity | ].
      cbn. now rewrite app_nil_r.
Qed.

(** X17.  A failed read of the camera, or ESC, ends the loop: what the
    devices deliver afterwards changes nothing.  ESC is compared with the
    whole value of [cv2.waitKey], and counts on a frame with or without the
    pattern. *)
Theorem nothing_after_the_end (pre rest : list (Tick Pixels))
  (t : Tick Pixels) (st : State) :
  frame t = None \/ key t = 27%Z ->
  main_loop (pre ++ t :: rest) st = main_loop (pre ++ [t]) st.
Proof.
  intros H. revert st. induction pre as [ | a pre IH]; intros st.
  - cbn [app main_loop]. unfold cbind.
    pose proof (stopping_tick t st H) as Hs.
    destruct (iteration t st) as [[b st'] | ]; [ | reflexivity].
    now rewrite Hs.
  - cbn [app main_loop]. unfold cbind.
    destruct (iteration a st) as [[b st'] | ]; [ | reflexivity].
    destruct b; [apply IH | reflexivity].
Qed.

End Run.

(** Two frames and ESC on the third: the three frames are shown, and not the
    fourth. *)
Lemma screen_follows_the_camera_example :
  let board := {| frame := Some ["chessboard"]%string; key := 32 |} in
  let wall := {| frame := Some ["wall"]%string; key := (-1) |} in
  let esc := {| frame := Some ["wall"]%string; key := 27 |} in
  exists st,
    main_loop (lib := lib_example) ([board; wall] ++ esc :: [board]) state0
    = Some (tt, st) /\
    screen st
    = map (display_of (lib := lib_example))
        (frames_of ([board; wall] ++ [esc])).
Proof.
  intros board wall esc.
  apply (screen_follows_the_camera (lib := lib_example)
           [board; wall] [board] esc).
  - repeat constructor; (eauto || discriminate).
  - vm_compute. lia.
  - right. left. reflexivity.
Defined.

(** ESC on the second frame: the capture asked for on the third frame does
    not happen. *)
Lemma nothing_after_the_end_example :
  let board := {| frame := Some ["chessboard"]%string; key := 32 |} in
  let esc := {| frame := Some ["chessboard"]%string; key := 27 |} in
  main_loop (lib := lib_example) ([board] ++ esc :: [board]) state0
  = main_loop (lib := lib_example) ([board] ++ [esc]) state0.
Proof.
  intros board esc.
  apply (nothing_after_the_end (lib := lib_example) [board] [board] esc).
  right. reflexivity.
Defined.

End CaptureRunTheory.

(** ** read_video.py *)

Module ReadVideoTheory.
Import ReadVideo.

Section Play.
Context {Image : Type}.

Lemma play_running (pre rest : list (Tick Image)) :
  forallb running pre = true ->
  play (pre ++ rest) = omap frame pre ++ play rest.
Proof.
  induction pre as [ | a pre IH]; intros H; [reflexivity | ].
  cbn [forallb] in H. apply andb_true_iff in H as [Ha Hpre].
  unfold running in Ha.
  change (play ((a :: pre) ++ rest))
    with (match frame a with
          | None => []
          | Some fr =>
              fr :: (if (Z.land (key a) 255 =? 27)%Z then []
                     else play (pre ++ rest))
          end).
  change (omap frame (a :: pre))
    with (match frame a with
          | Some fr => fr :: omap frame pre
          | None => omap frame pre
          end).
  destruct (frame a) as [fr | ]; [ | discriminate].
  apply negb_true_iff in Ha. rewrite Ha, (IH Hpre). reflexivity.
Qed.

(** X18.  The video is shown frame by frame up to, and with, the first
    frame on which ESC is pressed (the low byte of the key is 27), or up to
    the first failed read; nothing after it is shown, and a video that
    could not be opened shows nothing. *)
Theorem play_until_esc_or_end (pre rest : list (Tick Image))
  (t : Tick Image) :
  forallb running pre = true ->
  running t = false ->
  main true (pre ++ t :: rest) = omap frame (pre ++ [t]) /\
  main false (pre ++ t :: rest) = [].
Proof.
  intros Hpre Ht. split; [ | reflexivity].
  unfold main. rewrite play_running by exact Hpre.
  rewrite omap_app. f_equal.
  unfold running in Ht.
  change (play (t :: rest))
    with (match frame t with
          | None => []
          | Some fr =>
              fr :: (if (Z.land (key t) 255 =? 27)%Z then [] else play rest)
          end).
  change (omap frame [t])
    with (match frame t with Some fr => [fr] | None => [] end).
  destruct (frame t) as [fr | ]; [ | reflexivity].
  apply negb_false_iff in Ht. now rewrite Ht.
Qed.

End Play.

(** ESC with a modifier in the high bits on the second of three frames. *)
Lemma play_until_esc_or_end_example :
  main true
    ([ {| frame := Some 1%nat; key := 255 |} ]
     ++ {| frame := Some 2%nat; key := 283 |}
     :: [ {| frame := Some 3%nat; key := 255 |} ])
  = [1%nat; 2%nat].
Proof.
  apply (play_until_esc_or_end
           [ {| frame := Some 1%nat; key := 255 |} ]
           [ {| frame := Some 3%nat; key := 255 |} ]
           {| frame := Some 2%nat; key := 283 |});
    reflexivity.
Defined.

End ReadVideoTheory.
